(** * Video insights service: transcript chain, job tracker, insight batch

    A shallow embedding of [app/youtube_client.py], [app/nlp_pipeline.py] and
    [app/main.py].  A Python [str] is the byte string ([string]) of its
    UTF-8 encoding.  Lengths and slices count characters; case mapping,
    white space and [\w] are those of ASCII, so where they are used the
    embedding is exact on ASCII text.  Exceptions are values of [result];
    code that talks to Redis or to an external service is a command tree
    ([prog]) run against a [world] holding the TTL store and a clock. *)

From Stdlib Require Import ZArith QArith Ascii String DecimalString List Bool Lia.
From stdpp Require Import gmap strings list.

Local Open Scope Z_scope.

(* ===================================================================== *)
(** * Python exceptions and results *)
(* ===================================================================== *)

(** An exception is its class and the text of [str(e)]; the framework's
    [HTTPException] carries a status code and a detail. *)
Inductive exn :=
| Exn (class msg : string)
| HTTPException (status_code : Z) (detail : string).

Inductive result (A : Type) : Type :=
| Ok (a : A)
| Raise (e : exn).
Arguments Ok {A} a.
Arguments Raise {A} e.

Definition ValueError (msg : string) : exn := Exn "ValueError" msg.
Definition IndexError (msg : string) : exn := Exn "IndexError" msg.
Definition TypeError (msg : string) : exn := Exn "TypeError" msg.
Definition JSONDecodeError (msg : string) : exn := Exn "JSONDecodeError" msg.
Definition FileNotFoundError (msg : string) : exn := Exn "FileNotFoundError" msg.

(** [str(e)] *)
Definition str_exn (e : exn) : string :=
  match e with
  | Exn _ msg => msg
  | HTTPException status_code detail =>
      NilZero.string_of_int (Z.to_int status_code) +:+ ": " +:+ detail
  end.

(* ===================================================================== *)
(** * String operations of the Python runtime *)
(* ===================================================================== *)

Module Str.

Definition code (c : ascii) : N := N_of_ascii c.

Definition between (lo hi : N) (c : ascii) : bool :=
  (lo <=? code c)%N && (code c <=? hi)%N.

Definition is_upper (c : ascii) : bool := between 65 90 c.
Definition is_lower (c : ascii) : bool := between 97 122 c.
Definition is_alpha (c : ascii) : bool := is_upper c || is_lower c.
Definition is_digit (c : ascii) : bool := between 48 57 c.

(** [c in cs] for a one-character [c]. *)
Fixpoint mem (c : ascii) (cs : string) : bool :=
  match cs with
  | EmptyString => false
  | String d cs' => Ascii.eqb c d || mem c cs'
  end.

(** [all(p(c) for c in s)] *)
Fixpoint all (p : ascii -> bool) (s : string) : bool :=
  match s with
  | EmptyString => true
  | String c s' => p c && all p s'
  end.

(** [s.startswith(p)] *)
Fixpoint starts_with (p s : string) : bool :=
  match p, s with
  | EmptyString, _ => true
  | String a p', String b s' => Ascii.eqb a b && starts_with p' s'
  | String _ _, EmptyString => false
  end.

(** [needle in hay] *)
Fixpoint contains (needle hay : string) : bool :=
  starts_with needle hay ||
  match hay with
  | EmptyString => false
  | String _ hay' => contains needle hay'
  end.

(** A byte that continues a UTF-8 sequence.  A character of a [str] is the
    byte that starts a sequence and the continuation bytes after it. *)
Definition is_continuation (c : ascii) : bool := between 128 191 c.

(** [len(s)], in characters. *)
Fixpoint len (s : string) : nat :=
  match s with
  | EmptyString => O
  | String c s' => if is_continuation c then len s' else S (len s')
  end.

(** [s[:n]], in characters. *)
Fixpoint take_chars (n : nat) (s : string) : string :=
  match s with
  | EmptyString => EmptyString
  | String c s' =>
      if is_continuation c then String c (take_chars n s')
      else match n with
           | O => EmptyString
           | S n' => String c (take_chars n' s')
           end
  end.

(** [s[n:]] where the first [n] characters are ASCII. *)
Fixpoint drop (n : nat) (s : string) : string :=
  match n, s with
  | O, _ => s
  | S n', String _ s' => drop n' s'
  | S _, EmptyString => EmptyString
  end.

(** [s[:n]] where the first [n] characters are ASCII. *)
Fixpoint take (n : nat) (s : string) : string :=
  match n, s with
  | O, _ => EmptyString
  | S n', String c s' => String c (take n' s')
  | S _, EmptyString => EmptyString
  end.

(** [s.partition(c)] for a one-character separator: the text before the
    first [c] and, when there is one, the text after it. *)
Fixpoint partition (c : ascii) (s : string) : string * option string :=
  match s with
  | EmptyString => (EmptyString, None)
  | String a s' =>
      if Ascii.eqb a c then (EmptyString, Some s')
      else let (b, r) := partition c s' in (String a b, r)
  end.

(** [s.split(c)] for a one-character separator. *)
Fixpoint split (c : ascii) (s : string) : list string :=
  match s with
  | EmptyString => [EmptyString]
  | String a s' =>
      if Ascii.eqb a c then EmptyString :: split c s'
      else match split c s' with
           | w :: ws => String a w :: ws
           | [] => [String a EmptyString]
           end
  end.

(** The longest prefix without a character of [delims], and the rest. *)
Fixpoint span_until (delims : string) (s : string) : string * string :=
  match s with
  | EmptyString => (EmptyString, EmptyString)
  | String a s' =>
      if mem a delims then (EmptyString, s)
      else let (b, r) := span_until delims s' in (String a b, r)
  end.

(** [s.lstrip(cs)] *)
Fixpoint lstrip (cs : string) (s : string) : string :=
  match s with
  | EmptyString => EmptyString
  | String a s' => if mem a cs then lstrip cs s' else s
  end.

(** [s.rstrip(cs)] *)
Fixpoint rstrip (cs : string) (s : string) : string :=
  match s with
  | EmptyString => EmptyString
  | String a s' =>
      match rstrip cs s' with
      | EmptyString => if mem a cs then EmptyString else String a EmptyString
      | r => String a r
      end
  end.

(** [s.strip(cs)] *)
Definition strip (cs : string) (s : string) : string := rstrip cs (lstrip cs s).

(** [s.replace(c, "")] for a one-character [c]. *)
Fixpoint remove (c : ascii) (s : string) : string :=
  match s with
  | EmptyString => EmptyString
  | String a s' => if Ascii.eqb a c then remove c s' else String a (remove c s')
  end.

(** [s.replace(c, d)] for one-character [c] and [d]. *)
Fixpoint replace_char (c d : ascii) (s : string) : string :=
  match s with
  | EmptyString => EmptyString
  | String a s' => String (if Ascii.eqb a c then d else a) (replace_char c d s')
  end.

(** [s.replace(old, "")], scanning left to right; [skip] characters of a
    match just found are still to be dropped. *)
Fixpoint remove_sub_from (skip : nat) (old : string) (s : string) : string :=
  match s with
  | EmptyString => EmptyString
  | String a s' =>
      match skip with
      | S k => remove_sub_from k old s'
      | O =>
          if starts_with old s
          then remove_sub_from (String.length old - 1) old s'
          else String a (remove_sub_from O old s')
      end
  end.

Definition remove_sub (old s : string) : string :=
  match old with
  | EmptyString => s
  | _ => remove_sub_from O old s
  end.

(** [s.count(w)]: occurrences that do not overlap, left to right. *)
Fixpoint count_from (skip : nat) (w : string) (s : string) : nat :=
  match s with
  | EmptyString => O
  | String _ s' =>
      match skip with
      | S k => count_from k w s'
      | O =>
          if starts_with w s
          then S (count_from (String.length w - 1) w s')
          else count_from O w s'
      end
  end.

Definition count (w s : string) : nat :=
  match w with
  | EmptyString => S (len s)
  | _ => count_from O w s
  end.

Definition lower_char (c : ascii) : ascii :=
  if is_upper c then ascii_of_N (code c + 32) else c.

(** [s.lower()], on ASCII text: other bytes are kept. *)
Fixpoint lower (s : string) : string :=
  match s with
  | EmptyString => EmptyString
  | String c s' => String (lower_char c) (lower s')
  end.

(** [sep.join(parts)] *)
Fixpoint join (sep : string) (parts : list string) : string :=
  match parts with
  | [] => EmptyString
  | [p] => p
  | p :: ps => p +:+ sep +:+ join sep ps
  end.

(** Python truthiness of a [str]. *)
Definition truthy (s : string) : bool :=
  match s with EmptyString => false | _ => true end.

(** [s.isascii()]: no byte of [s] is 128 or more. *)
Definition isascii (s : string) : bool := all (fun c => (code c <? 128)%N) s.

End Str.

(* ===================================================================== *)
(** * Data model *)
(* ===================================================================== *)

(** A transcript segment, the dict [{"text", "start", "duration"}]; the two
    floats are carried as rationals. *)
Record Segment := { text : string; start : Q; duration : Q }.

(** The dict [{"source", "segments"}] returned by [get_transcript]. *)
Record TranscriptResult := { source : string; segments : list Segment }.

(** The dict [{"name", "sentiment", "insights"}] of [extract_insights]. *)
Record InsightRecord := { name : string; sentiment : string; insights : list string }.

(** A value of dynamic type where the source returns either a string or a
    list of segments. *)
Inductive pyvalue :=
| PyStr (s : string)
| PySegments (l : list Segment).

(** The [snippet] object of the video metadata lookup, as far as it is read. *)
Record Snippet := { title : option string; description : option string }.

(** Outcomes of the external calls. *)
Inductive api_outcome :=
| ApiSegments (l : list Segment)      (* the call returned a list *)
| ApiNoTranscript (msg : string)      (* TranscriptsDisabled, NoTranscriptFound *)
| ApiFailure (msg : string).          (* any other exception *)

Inductive details_outcome :=
| DetailsSnippet (s : Snippet)        (* data['items'][0]['snippet'] *)
| DetailsNoItems                      (* no 'items' in the answer *)
| DetailsFailure (msg : string).      (* request or decoding raised *)

Inductive download_outcome :=
| DownloadDone (file_exists : bool)
| DownloadFailure (msg : string).

Inductive whisper_outcome :=
| WhisperResponse (response_text : option string)   (* response.get("text") *)
| WhisperFailure (msg : string).

Inductive chat_outcome :=
| ChatContent (content : string)      (* response.choices[0].message.content *)
| ChatFailure (msg : string).

(** What the process reads from its environment and from the services it
    calls.  An oracle takes the number of commands run so far, so that two
    calls need not answer alike. *)
Record env := {
  YT_DLP_AVAILABLE : bool;
  OPENAI_AVAILABLE : bool;
  OPENAI_API_KEY : option string;
  YOUTUBE_API_KEY : option string;
  (* [_check_bracketed_host]: the text of the [ValueError] that the
     interpreter's [ipaddress] and IPvFuture checks raise for a bracketed
     host, if they raise *)
  check_bracketed_host : string -> option string;
  (* [unicodedata.normalize('NFKC', _)] *)
  nfkc : string -> string;
  transcript_api : nat -> string -> api_outcome;
  video_details_api : nat -> string -> details_outcome;
  audio_download : nat -> string -> download_outcome;
  whisper_api : nat -> string -> whisper_outcome;
  chat_api : nat -> string -> string -> chat_outcome;
  random_index : nat -> nat -> nat;
  latency : nat -> Z
}.

(** Truthiness of [os.getenv(...)]. *)
Definition key_set (k : option string) : bool :=
  match k with
  | Some s => Str.truthy s
  | None => false
  end.

(* ===================================================================== *)
(** * urllib.parse, as far as [extract_video_id] uses it *)
(* ===================================================================== *)

Record ParseResult := {
  scheme : string; netloc : string; path : string;
  params : string; query : string; fragment : string
}.

Definition tab : ascii := ascii_of_N 9.
Definition lf : ascii := ascii_of_N 10.
Definition cr : ascii := ascii_of_N 13.

(** [_WHATWG_C0_CONTROL_OR_SPACE] *)
Definition c0_control_or_space (c : ascii) : bool := (Str.code c <=? 32)%N.

Fixpoint lstrip_c0 (s : string) : string :=
  match s with
  | EmptyString => EmptyString
  | String a s' => if c0_control_or_space a then lstrip_c0 s' else s
  end.

(** [for b in _UNSAFE_URL_BYTES_TO_REMOVE: url = url.replace(b, "")] *)
Definition remove_unsafe (s : string) : string :=
  Str.remove lf (Str.remove cr (Str.remove tab s)).

Definition scheme_char (c : ascii) : bool :=
  Str.is_alpha c || Str.is_digit c || Str.mem c "+-.".

(** The scheme loop of [urlsplit]: the lowered scheme and the rest, or the
    url as it is. *)
Definition split_scheme (url : string) : string * string :=
  match Str.partition ":" url with
  | ((String c0 _) as pre, Some rest) =>
      if Str.is_alpha c0 && Str.all scheme_char pre
      then (Str.lower pre, rest)
      else (EmptyString, url)
  | _ => (EmptyString, url)
  end.

Definition uses_params : list string :=
  [""; "ftp"; "hdl"; "prospero"; "http"; "imap"; "https"; "shttp"; "rtsp";
   "rtspu"; "sip"; "sips"; "mms"; "sftp"; "tel"].

Definition invalid_ipv6 : exn := ValueError "Invalid IPv6 URL".

(** [netloc.rpartition('@')[2]] *)
Fixpoint after_last_at (s : string) : string :=
  match s with
  | EmptyString => EmptyString
  | String a s' =>
      if Str.mem "@" s' then after_last_at s'
      else if Ascii.eqb a "@" then s' else s
  end.

(** [_check_bracketed_netloc]; the host itself is checked by
    [_check_bracketed_host], taken from [env]. *)
Definition check_bracketed_netloc (E : env) (netloc : string) : result unit :=
  let hostname_and_port := after_last_at netloc in
  match Str.partition "[" hostname_and_port with
  | (before_bracket, Some bracketed) =>
      if Str.truthy before_bracket then Raise invalid_ipv6
      else
        let (hostname, port) := Str.partition "]" bracketed in
        let port := match port with Some p => p | None => EmptyString end in
        if Str.truthy port && negb (Str.starts_with ":" port)
        then Raise invalid_ipv6
        else
          match check_bracketed_host E hostname with
          | None => Ok tt
          | Some msg => Raise (ValueError msg)
          end
  | (_, None) =>
      let (hostname, _) := Str.partition ":" hostname_and_port in
      match check_bracketed_host E hostname with
      | None => Ok tt
      | Some msg => Raise (ValueError msg)
      end
  end.

(** The netloc step of [urlsplit]: [_splitnetloc(url, 2)] and the bracket
    checks. *)
Definition split_netloc (E : env) (url : string) : result (string * string) :=
  if Str.starts_with "//" url then
    let (netloc, rest) := Str.span_until "/?#" (Str.drop 2 url) in
    let lb := Str.mem "[" netloc in
    let rb := Str.mem "]" netloc in
    if (lb && negb rb) || (rb && negb lb) then Raise invalid_ipv6
    else if lb && rb then
      match check_bracketed_netloc E netloc with
      | Ok _ => Ok (netloc, rest)
      | Raise e => Raise e
      end
    else Ok (netloc, rest)
  else Ok (EmptyString, url).

(** [url.split(c, 1)] under the guard [c in url]. *)
Definition split_once (c : ascii) (url : string) : string * string :=
  match Str.partition c url with
  | (pre, Some post) => (pre, post)
  | (pre, None) => (pre, EmptyString)
  end.

(** The text after the last ['/'] keeps its first [';'] as the start of the
    parameters. *)
Fixpoint splitparams_last_segment (url : string) : option (string * string) :=
  match url with
  | EmptyString => None
  | String a s' =>
      if Str.mem "/" s' then
        match splitparams_last_segment s' with
        | Some (p, q) => Some (String a p, q)
        | None => None
        end
      else
        match Str.partition ";" url with
        | (p, Some q) => Some (p, q)
        | (_, None) => None
        end
  end.

(** [_splitparams] *)
Definition splitparams (url : string) : string * string :=
  match splitparams_last_segment url with
  | Some pq => pq
  | None => (url, EmptyString)
  end.

(** [_checknetloc]: a netloc with a character outside ASCII must not gain
    one of ['/?#@:'] under NFKC normalization. *)
Definition checknetloc (E : env) (netloc : string) : result unit :=
  if negb (Str.truthy netloc) || Str.isascii netloc then Ok tt
  else
    let n := Str.remove "?" (Str.remove "#" (Str.remove ":"
               (Str.remove "@" netloc))) in
    let netloc2 := nfkc E n in
    if String.eqb n netloc2 then Ok tt
    else if existsb (fun c => Str.mem c netloc2) (list_ascii_of_string "/?#@:")
    then Raise (ValueError ("netloc '" +:+ netloc +:+ "' contains invalid "
                            +:+ "characters under NFKC normalization"))
    else Ok tt.

Definition urlsplit (E : env) (url : string) : result ParseResult :=
  let url := remove_unsafe (lstrip_c0 url) in
  let (scheme, url) := split_scheme url in
  match split_netloc E url with
  | Raise e => Raise e
  | Ok (netloc, url) =>
      let (url, fragment) := split_once "#" url in
      let (url, query) := split_once "?" url in
      match checknetloc E netloc with
      | Raise e => Raise e
      | Ok _ =>
          Ok {| scheme := scheme; netloc := netloc; path := url;
                params := EmptyString; query := query; fragment := fragment |}
      end
  end.

Definition urlparse (E : env) (url : string) : result ParseResult :=
  match urlsplit E url with
  | Raise e => Raise e
  | Ok r =>
      if existsb (String.eqb (scheme r)) uses_params && Str.mem ";" (path r)
      then let (url, params) := splitparams (path r) in
           Ok {| scheme := scheme r; netloc := netloc r; path := url;
                 params := params; query := query r; fragment := fragment r |}
      else Ok r
  end.

(** ** parse_qs *)

Definition hex_value (c : ascii) : option N :=
  if Str.is_digit c then Some (Str.code c - 48)%N
  else if Str.between 97 102 c then Some (Str.code c - 87)%N
  else if Str.between 65 70 c then Some (Str.code c - 55)%N
  else None.

(** [unquote]: a ['%'] followed by two hexadecimal digits becomes the byte
    they name, any other ['%'] stays.  The bytes are kept as they are: the
    interpreter then decodes them as UTF-8, which changes them only where
    they are not valid UTF-8. *)
Fixpoint unquote (s : string) : string :=
  match s with
  | String "%" ((String h (String l s')) as t) =>
      match hex_value h, hex_value l with
      | Some a, Some b => String (ascii_of_N (16 * a + b)) (unquote s')
      | _, _ => String "%" (unquote t)
      end
  | String c s' => String c (unquote s')
  | EmptyString => EmptyString
  end.

(** [parse_qsl] with its default arguments: fields without ['='] or with a
    blank value are dropped. *)
Definition parse_field (name_value : string) : option (string * string) :=
  match Str.partition "=" name_value with
  | (n, Some v) =>
      if Str.truthy v
      then Some (unquote (Str.replace_char "+" " " n),
                 unquote (Str.replace_char "+" " " v))
      else None
  | (_, None) => None
  end.

Definition parse_qsl (qs : string) : list (string * string) :=
  if Str.truthy qs then omap parse_field (Str.split "&" qs) else [].

(** [parsed_result[name].append(value)], or a new list for a new name. *)
Definition add_value (parsed_result : gmap string (list string))
    (nv : string * string) : gmap string (list string) :=
  match parsed_result !! nv.1 with
  | Some vs => <[nv.1 := vs ++ [nv.2]]> parsed_result
  | None => <[nv.1 := [nv.2]]> parsed_result
  end.

(** [parse_qs]: the dict from a name to its values, in order. *)
Definition parse_qs (qs : string) : gmap string (list string) :=
  foldl add_value ∅ (parse_qsl qs).

(* ===================================================================== *)
(** * The five fallback patterns of [extract_video_id] *)
(* ===================================================================== *)

(** [\w] on ASCII text: no byte of another character is in the class. *)
Definition is_word (c : ascii) : bool :=
  Str.is_alpha c || Str.is_digit c || Ascii.eqb c "_".

(** [[\w-]] *)
Definition is_id_char (c : ascii) : bool := is_word c || Ascii.eqb c "-".

(** The text [([\w-]+)] takes: the longest run of such characters. *)
Fixpoint id_run (s : string) : string :=
  match s with
  | EmptyString => EmptyString
  | String c s' => if is_id_char c then String c (id_run s') else EmptyString
  end.

(** A pattern [(?:A|B|...)([\w-]+)] tried at the start of [s]: the
    alternatives in order, each followed by at least one character of the
    class; the value is group 1. *)
Fixpoint match_here (alts : list string) (s : string) : option string :=
  match alts with
  | [] => None
  | a :: alts' =>
      if Str.starts_with a s then
        match id_run (Str.drop (String.length a) s) with
        | EmptyString => match_here alts' s
        | g => Some g
        end
      else match_here alts' s
  end.

(** [re.search]: the leftmost position where the pattern matches. *)
Fixpoint re_search (alts : list string) (s : string) : option string :=
  match match_here alts s with
  | Some g => Some g
  | None =>
      match s with
      | EmptyString => None
      | String _ s' => re_search alts s'
      end
  end.

Definition patterns : list (list string) :=
  [ ["youtube.com/watch?v="; "youtu.be/"];
    ["youtube.com/shorts/"];
    ["youtube.com/live/"];
    ["youtube.com/embed/"];
    ["youtube.com/v/"] ].

(** The [for pattern in patterns] loop: the first pattern that matches. *)
Fixpoint first_match (ps : list (list string)) (url : string) : option string :=
  match ps with
  | [] => None
  | p :: ps' =>
      match re_search p url with
      | Some g => Some g
      | None => first_match ps' url
      end
  end.

(* ===================================================================== *)
(** * extract_video_id *)
(* ===================================================================== *)

Definition demo_video_id : string := "D9Ihs241zeg".

(** The [youtube.com] branch: [Ok (Some id)] where it returns, [Ok None]
    where control falls through to the patterns. *)
Definition youtube_com_branch (parsed_url : ParseResult) : result (option string) :=
  if String.eqb (path parsed_url) "/watch" then
    match parse_qs (query parsed_url) !! "v" with
    | Some (video_id :: _) => Ok (Some video_id)
    | Some [] => Raise (IndexError "list index out of range")
    | None => Ok None
    end
  else if Str.starts_with "/shorts/" (path parsed_url)
          || Str.starts_with "/live/" (path parsed_url) then
    match Str.split "/" (path parsed_url) !! 2%nat with
    | Some video_id => Ok (Some video_id)
    | None => Raise (IndexError "list index out of range")
    end
  else Ok None.

Definition regex_fallback (url : string) : string :=
  match first_match patterns url with
  | Some video_id => video_id
  | None => demo_video_id
  end.

Definition extract_video_id (E : env) (url : string) : result string :=
  match urlparse E url with
  | Raise e => Raise e
  | Ok parsed_url =>
      if Str.contains "youtu.be" (netloc parsed_url) then
        Ok (Str.strip "/" (path parsed_url))
      else if Str.contains "youtube.com" (netloc parsed_url)
              || Str.contains "m.youtube.com" (netloc parsed_url) then
        match youtube_com_branch parsed_url with
        | Raise e => Raise e
        | Ok (Some video_id) => Ok video_id
        | Ok None => Ok (regex_fallback url)
        end
      else Ok (regex_fallback url)
  end.

(* ===================================================================== *)
(** * The TTL store, the clock and the commands *)
(* ===================================================================== *)

(** What a key holds.  [json.dumps] turns a transcript dict or an insight
    list into the text stored, and [json.loads] gives it back: the document
    stands for its text, which is never empty. *)
Inductive value :=
| VText (s : string)
| VTranscript (r : TranscriptResult)
| VInsights (l : list InsightRecord).

(** [SETEX key ttl v] at time [t] keeps [v] until [t + ttl]. *)
Record entry := { held : value; expires : Z }.

Inductive event :=
| EvGet (key : string)
| EvSetex (key : string) (ttl : Z) (v : value)
| EvDelete (key : string)
| EvTranscriptApi (video_id : string)
| EvVideoDetails (video_id : string)
| EvDownload (video_id : string)
| EvWhisper (video_id : string)
| EvSample
| EvChat (topic : string).

(** The clock, the store, and the commands run so far, the latest first. *)
Record world := { now : Z; db : gmap string entry; log : list event }.

(** The commands run so far, in the order they ran. *)
Definition history (w : world) : list event := rev (log w).

Inductive cmd : Type -> Type :=
| RedisGet (key : string) : cmd (option value)
| RedisSetex (key : string) (ttl : Z) (v : value) : cmd unit
| RedisDelete (key : string) : cmd unit
| CallTranscriptApi (video_id : string) : cmd api_outcome
| CallVideoDetails (video_id : string) : cmd details_outcome
| CallDownload (video_id : string) : cmd download_outcome
| CallWhisper (video_id : string) : cmd whisper_outcome
| RandomSample (population : list string) (k : nat) : cmd (list string)
| CallChat (text topic : string) : cmd chat_outcome.

(** [GET]: the value of a key that has not expired. *)
Definition live (t : Z) (e : option entry) : option value :=
  match e with
  | Some e => if t <? expires e then Some (held e) else None
  | None => None
  end.

Definition redis_get (key : string) (w : world) : option value :=
  live (now w) (db w !! key).

(** [random.sample(population, k)]: [k] elements at distinct positions, the
    positions drawn by [rnd]. *)
Fixpoint sample_with (rnd : nat -> nat) (population : list string) (k : nat)
  : list string :=
  match k with
  | O => []
  | S k' =>
      match population with
      | [] => []
      | x :: _ =>
          let i := (rnd k' mod length population)%nat in
          nth i population x :: sample_with rnd (delete i population) k'
      end
  end.

(** A command is logged and takes [latency] seconds. *)
Definition advance (E : env) (ev : event) (d : gmap string entry) (w : world) : world :=
  {| now := now w + latency E (length (log w));
     db := d;
     log := ev :: log w |}.

Definition exec {X : Type} (E : env) (c : cmd X) (w : world) : X * world :=
  let n := length (log w) in
  match c in cmd X return X * world with
  | RedisGet key => (redis_get key w, advance E (EvGet key) (db w) w)
  | RedisSetex key ttl v =>
      (tt, advance E (EvSetex key ttl v)
             (<[key := {| held := v; expires := now w + ttl |}]> (db w)) w)
  | RedisDelete key => (tt, advance E (EvDelete key) (delete key (db w)) w)
  | CallTranscriptApi video_id =>
      (transcript_api E n video_id, advance E (EvTranscriptApi video_id) (db w) w)
  | CallVideoDetails video_id =>
      (video_details_api E n video_id, advance E (EvVideoDetails video_id) (db w) w)
  | CallDownload video_id =>
      (audio_download E n video_id, advance E (EvDownload video_id) (db w) w)
  | CallWhisper video_id =>
      (whisper_api E n video_id, advance E (EvWhisper video_id) (db w) w)
  | RandomSample population k =>
      (sample_with (random_index E n) population k, advance E EvSample (db w) w)
  | CallChat text topic =>
      (chat_api E n text topic, advance E (EvChat topic) (db w) w)
  end.

(** ** Programs *)

Inductive prog (A : Type) : Type :=
| Ret (a : A)
| Throw (e : exn)
| Do {X : Type} (c : cmd X) (k : X -> prog A).
Arguments Ret {A} a.
Arguments Throw {A} e.
Arguments Do {A X} c k.

Fixpoint bind {A B : Type} (p : prog A) (f : A -> prog B) : prog B :=
  match p with
  | Ret a => f a
  | Throw e => Throw e
  | Do c k => Do c (fun x => bind (k x) f)
  end.

(** [try: p  except Exception as e: h e] *)
Fixpoint catch {A : Type} (p : prog A) (h : exn -> prog A) : prog A :=
  match p with
  | Ret a => Ret a
  | Throw e => h e
  | Do c k => Do c (fun x => catch (k x) h)
  end.

Definition call {X : Type} (c : cmd X) : prog X := Do c Ret.

Definition lift {A : Type} (r : result A) : prog A :=
  match r with
  | Ok a => Ret a
  | Raise e => Throw e
  end.

Declare Scope prog_scope.
Delimit Scope prog_scope with prog.
Notation "x ← p ; q" := (bind p (fun x => q))
  (at level 20, p at level 100, q at level 200, only parsing) : prog_scope.
Notation "p ;; q" := (bind p (fun _ => q))
  (at level 100, q at level 200, only parsing, right associativity) : prog_scope.
Local Open Scope prog_scope.

(** The result and the world a program ends in. *)
Fixpoint run {A : Type} (E : env) (p : prog A) (w : world) : result A * world :=
  match p with
  | Ret a => (Ok a, w)
  | Throw e => (Raise e, w)
  | Do c k => let (x, w') := exec E c w in run E (k x) w'
  end.

(** Every world a program passes through, the first and the last included. *)
Fixpoint visits {A : Type} (E : env) (p : prog A) (w : world) : list world :=
  w :: match p with
       | Do c k => let (x, w') := exec E c w in visits E (k x) w'
       | _ => []
       end.

(** [redis_client.get / setex / delete] *)
Definition redis_GET (key : string) : prog (option value) := call (RedisGet key).
Definition redis_SETEX (key : string) (ttl : Z) (v : value) : prog unit :=
  call (RedisSetex key ttl v).
Definition redis_DELETE (key : string) : prog unit := call (RedisDelete key).

(** Truthiness of what [get] returns. *)
Definition value_truthy (v : option value) : bool :=
  match v with
  | Some (VText s) => Str.truthy s
  | Some _ => true
  | None => false
  end.

(* ===================================================================== *)
(** * youtube_client: the transcript source chain *)
(* ===================================================================== *)

Definition when (b : bool) (p : prog unit) : prog unit := if b then p else Ret tt.

Definition empty_details : Snippet := {| title := None; description := None |}.

Definition get_video_details (E : env) (video_id : string) : prog Snippet :=
  if negb (key_set (YOUTUBE_API_KEY E)) then Ret empty_details
  else
    catch
      (data ← call (CallVideoDetails video_id);
       match data with
       | DetailsFailure msg => Throw (Exn "Exception" msg)
       | DetailsNoItems => Ret empty_details
       | DetailsSnippet s => Ret s
       end)
      (fun _ => Ret empty_details).

Definition fetch_transcript_from_api (E : env) (video_id : string)
  : prog (option (list Segment)) :=
  catch
    (r ← call (CallTranscriptApi video_id);
     match r with
     | ApiSegments transcript_list => Ret (Some transcript_list)
     | ApiNoTranscript msg => Throw (Exn "NoTranscriptFound" msg)
     | ApiFailure msg => Throw (Exn "Exception" msg)
     end)
    (fun _ => Ret None).
(** The three pieces of the template around [{title}] and [{description}]. *)
Definition mock_with_details_head : string :=
"
        Welcome to this discussion on ".

Definition mock_with_details_middle : string :=
".
        
        ".

Definition mock_with_details_tail : string :=
"
        
        This talk covers important sustainability topics including climate change, renewable energy,
        waste management, carbon emissions, and sustainable business practices.
        
        Companies need to measure and reduce their carbon footprint.
        Setting science-based targets is critical for aligning with global climate goals.
        
        Transitioning from fossil fuels to clean energy sources like solar and wind
        can significantly reduce environmental impact while often reducing costs in the long term.
        
        Implementing circular economy principles can turn waste into resources,
        reducing landfill use and creating new value streams from what was previously discarded.
        
        Thank you for joining this conversation on sustainability. The actions we take today will determine the world we leave
        for future generations.
        ".

Definition mock_generic : string :=
"
        Welcome to this important discussion on sustainability. Today we'll explore how businesses can contribute to a healthier planet.
        
        Our first topic is climate change and carbon emissions. Companies need to measure and reduce their carbon footprint.
        Setting science-based targets is critical for aligning with global climate goals.
        
        Next, let's discuss renewable energy. Transitioning from fossil fuels to clean energy sources like solar and wind
        can significantly reduce environmental impact while often reducing costs in the long term.
        
        Waste management is another critical area. Implementing circular economy principles can turn waste into resources,
        reducing landfill use and creating new value streams from what was previously discarded.
        
        Water conservation should be a priority, especially in water-stressed regions. Businesses can implement water-efficient
        processes and technologies to reduce their water footprint.
        
        Finally, sustainable supply chains ensure that environmental and social standards are maintained throughout the entire
        production process, from raw materials to end products.
        
        Thank you for joining this conversation on sustainability. The actions we take today will determine the world we leave
        for future generations.
        ".

Definition get_mock_transcript (E : env) (video_id : string) : prog string :=
  video_details ← get_video_details E video_id;
  let title := default "sustainability topics" (title video_details) in
  let description := default "" (description video_details) in
  if Str.truthy title && Str.truthy description then
    Ret (mock_with_details_head +:+ title +:+ mock_with_details_middle
         +:+ description +:+ mock_with_details_tail)
  else Ret mock_generic.

Definition single_segment (transcript_text : string) : list Segment :=
  [ {| text := transcript_text; start := 0%Q; duration := 0%Q |} ].

Definition fallback_whisper (E : env) (video_id : string) : prog pyvalue :=
  if negb (YT_DLP_AVAILABLE E) then
    mock_transcript ← get_mock_transcript E video_id;
    Ret (PyStr mock_transcript)
  else if negb (OPENAI_AVAILABLE E) || negb (key_set (OPENAI_API_KEY E)) then
    mock_transcript ← get_mock_transcript E video_id;
    Ret (PyStr mock_transcript)
  else
    catch
      (d ← call (CallDownload video_id);
       match d with
       | DownloadFailure msg => Throw (Exn "DownloadError" msg)
       | DownloadDone false =>
           Throw (FileNotFoundError "Downloaded audio file not found")
       | DownloadDone true =>
           response ← call (CallWhisper video_id);
           match response with
           | WhisperFailure msg => Throw (Exn "Exception" msg)
           | WhisperResponse response_text =>
               let transcript_text := default "" response_text in
               Ret (PySegments (single_segment transcript_text))
           end
       end)
      (fun _ =>
         mock_transcript ← get_mock_transcript E video_id;
         Ret (PySegments (single_segment mock_transcript))).

(** [json.loads] of a cached transcript; [transcript:] keys are only ever
    written with a transcript document.  Any other value stands for a text
    that is no such document: the result is an exception, whose text is
    not the decoder's. *)
Definition json_loads_transcript (v : option value) : prog TranscriptResult :=
  match v with
  | Some (VTranscript r) => Ret r
  | Some (VInsights _) => Throw (TypeError "list indices must be integers")
  | Some (VText _) => Throw (JSONDecodeError "Expecting value")
  | None => Throw (TypeError "the JSON object must be str, bytes or bytearray")
  end.

Definition no_transcript_class (e : exn) : bool :=
  match e with
  | Exn class _ =>
      String.eqb class "TranscriptsDisabled" || String.eqb class "NoTranscriptFound"
  | HTTPException _ _ => false
  end.

(** The mock branch of [get_transcript], written twice in the source. *)
Definition mock_result (E : env) (video_id transcript_key : string)
    (redis_client : bool) : prog TranscriptResult :=
  mock_transcript ← get_mock_transcript E video_id;
  let mock_segments := single_segment mock_transcript in
  when redis_client
    (redis_SETEX transcript_key 86400
       (VTranscript {| source := "mock_data"; segments := mock_segments |}));;
  Ret {| source := "mock_data"; segments := mock_segments |}.

Definition get_transcript (E : env) (video_id : string) (redis_client : bool)
  : prog TranscriptResult :=
  let error_key := "error:" +:+ video_id in
  let status_key := "status:" +:+ video_id in
  let transcript_key := "transcript:" +:+ video_id in
  when redis_client
    (redis_DELETE error_key;;
     redis_DELETE status_key;;
     redis_SETEX status_key 3600 (VText "pending"));;
  cached_transcript ← (if redis_client then redis_GET transcript_key else Ret None);
  if value_truthy cached_transcript then json_loads_transcript cached_transcript
  else
    catch
      (catch
         (transcript_list ← fetch_transcript_from_api E video_id;
          match transcript_list with
          | Some ((_ :: _) as transcript_list) =>
              when redis_client
                (redis_SETEX transcript_key 86400
                   (VTranscript {| source := "youtube_api";
                                   segments := transcript_list |}));;
              Ret {| source := "youtube_api"; segments := transcript_list |}
          | _ => mock_result E video_id transcript_key redis_client
          end)
         (fun e =>
            if no_transcript_class e
            then mock_result E video_id transcript_key redis_client
            else Throw e))
      (fun e =>
         when redis_client
           (redis_SETEX error_key 3600 (VText (str_exn e));;
            redis_SETEX status_key 3600 (VText "error"));;
         Throw e).

Definition fetch_transcript (E : env) (url : string) (redis_client : bool)
  : prog TranscriptResult :=
  video_id ← lift (extract_video_id E url);
  get_transcript E video_id redis_client.

(* ===================================================================== *)
(** * nlp_pipeline: the insight batch *)
(* ===================================================================== *)

Definition topic_insights : list (string * list string) :=
  [ ("Climate Change",
      [ "Develop a comprehensive carbon footprint tracking system to monitor and reduce greenhouse gas emissions.";
        "Invest in climate resilience measures to prepare facilities for extreme weather events.";
        "Partner with environmental NGOs to support reforestation and carbon offset projects." ]);
    ("Renewable Energy",
      [ "Transition facilities to solar or wind power through PPAs (Power Purchase Agreements) with renewable providers.";
        "Install on-site renewable energy generation like solar panels to reduce operational costs.";
        "Implement energy storage solutions to maximize renewable energy utilization during peak demand." ]);
    ("Waste Management",
      [ "Establish a zero-waste-to-landfill policy with specific reduction targets and timelines.";
        "Redesign packaging to use biodegradable materials and minimize single-use plastics.";
        "Implement a comprehensive recycling program with clear labeling and employee training." ]);
    ("Carbon Emissions",
      [ "Convert company fleet to electric vehicles and install charging infrastructure.";
        "Set science-based targets for emissions reduction aligned with the Paris Agreement.";
        "Implement a carbon pricing mechanism for internal decision-making and investments." ]);
    ("Corporate Sustainability",
      [ "Integrate ESG (Environmental, Social, Governance) metrics into executive compensation structures.";
        "Publish an annual sustainability report following GRI or SASB standards for transparency.";
        "Establish a cross-functional sustainability committee with C-suite representation." ]);
    ("Water Conservation",
      [ "Install water-efficient fixtures and implement greywater recycling systems in facilities.";
        "Conduct water footprint assessments for all products and set reduction targets.";
        "Partner with watershed conservation organizations in regions where you operate." ]);
    ("Sustainable Supply Chain",
      [ "Implement supplier sustainability scorecards and set minimum requirements for vendors.";
        "Reduce transportation emissions through optimized logistics and local sourcing.";
        "Conduct regular sustainability audits of key suppliers and offer improvement resources." ]);
    ("Circular Economy",
      [ "Design products for disassembly and recyclability to extend their lifecycle.";
        "Establish product take-back programs to recover materials at end of life.";
        "Launch a service-based business model alongside product sales to reduce resource consumption." ]) ].

Definition positive_words : list string :=
  ["benefit"; "advantage"; "opportunity"; "positive"; "good"; "great";
   "excellent"; "improve"; "improvement"; "progress"; "solution";
   "success"; "successful"; "effective"; "efficient"; "sustainable";
   "innovative"; "innovation"; "clean"; "save"; "savings"; "growth";
   "advance"; "advantage"; "beneficial"; "better"; "progress"; "promising";
   "protect"; "protection"; "reduce"; "reduction"].

Definition negative_words : list string :=
  ["problem"; "challenge"; "difficult"; "difficulty"; "issue"; "concern";
   "risk"; "threat"; "crisis"; "damage"; "harmful"; "negative"; "pollute";
   "pollution"; "waste"; "danger"; "dangerous"; "hazard"; "hazardous";
   "toxic"; "costly"; "expensive"; "fail"; "failure"; "loss"; "deficit";
   "shortage"; "decrease"].

(** The characters [str.strip()] removes, on ASCII text. *)
Definition whitespace : string :=
  string_of_list_ascii
    (map ascii_of_N [9; 10; 11; 12; 13; 28; 29; 30; 31; 32]%N).

Definition strip_ws (s : string) : string := Str.strip whitespace s.

(** The bullet character, in UTF-8. *)
Definition bullet : string :=
  string_of_list_ascii (map ascii_of_N [226; 128; 162]%N).

Definition sum_counts (words : list string) (s : string) : Z :=
  foldr (fun w acc => Z.of_nat (Str.count w s) + acc) 0 words.

(** [topic] only reaches the log line.  The counts are integers, so
    [a > b * 1.5] is [2 * a > 3 * b]. *)
Definition analyze_sentiment_simple (text topic : string) : string :=
  let text_lower := Str.lower text in
  let positive_count := sum_counts positive_words text_lower in
  let negative_count := sum_counts negative_words text_lower in
  if 3 * negative_count <? 2 * positive_count then "positive"
  else if 3 * positive_count <? 2 * negative_count then "negative"
  else "neutral".

(** [dict.get(key)] on the literal dict, kept in source order. *)
Fixpoint dict_get (key : string) (d : list (string * list string))
  : option (list string) :=
  match d with
  | [] => None
  | (k, v) :: d' => if String.eqb k key then Some v else dict_get key d'
  end.

Definition parse_bullets (insights_text : string) : list string :=
  let lines := Str.split lf insights_text in
  let insights :=
    map (fun line =>
           Str.remove_sub "- " (Str.remove_sub (bullet +:+ " ") (strip_ws line)))
        (filter (fun line =>
                   Str.starts_with bullet (strip_ws line) = true
                   ∨ Str.starts_with "-" (strip_ws line) = true) lines) in
  let insights :=
    match insights with
    | [] => filter (fun line => Str.truthy line = true) (map strip_ws lines)
    | _ => insights
    end in
  match insights with
  | [] => [insights_text]
  | _ => insights
  end.

Definition generate_insights_with_gpt (E : env) (text topic : string)
  : prog (list string) :=
  catch
    (if negb (OPENAI_AVAILABLE E) || negb (key_set (OPENAI_API_KEY E)) then
       Ret [ "Consider developing comprehensive sustainability policies related to "
               +:+ topic +:+ ".";
             "Monitor emerging regulations in the " +:+ topic
               +:+ " space to ensure compliance.";
             "Engage with industry partners on collaborative " +:+ topic
               +:+ " initiatives." ]
     else
       let text :=
         if (Z.to_nat 6000 <? Str.len text)%nat
         then Str.take_chars (Z.to_nat 6000) text +:+ "..." else text in
       (* the prompt is a template filled with [text] and [topic] *)
       response ← call (CallChat text topic);
       match response with
       | ChatFailure msg => Throw (Exn "Exception" msg)
       | ChatContent content => Ret (parse_bullets (strip_ws content))
       end)
    (fun _ =>
       Ret [ "Consider developing comprehensive sustainability policies related to "
               +:+ topic +:+ ".";
             "Monitor emerging regulations in the " +:+ topic
               +:+ " space to ensure compliance." ]).

(** [topic_insights.get(topic, [...])] *)
Definition predefined_insights (topic : string) : list string :=
  default
    [ "Consider developing sustainability policies related to " +:+ topic +:+ ".";
      "Monitor emerging regulations in the " +:+ topic
        +:+ " space to ensure compliance." ]
    (dict_get topic topic_insights).

(** The body of the [for topic in selected_topics] loop. *)
Definition topic_record (E : env) (full_text topic : string) : prog InsightRecord :=
  catch
    (insights ←
       (if key_set (OPENAI_API_KEY E) && OPENAI_AVAILABLE E then
          catch (generate_insights_with_gpt E full_text topic)
                (fun _ => Ret (predefined_insights topic))
        else Ret (predefined_insights topic));
     let sentiment := analyze_sentiment_simple full_text topic in
     Ret {| name := topic; sentiment := sentiment; insights := insights |})
    (fun _ =>
       Ret {| name := topic;
              sentiment := "neutral";
              insights :=
                [ "Consider developing sustainability policies related to "
                    +:+ topic +:+ " based on emerging regulations." ] |}).

Fixpoint for_each_topic (E : env) (full_text : string) (selected_topics : list string)
  : prog (list InsightRecord) :=
  match selected_topics with
  | [] => Ret []
  | topic :: rest =>
      r ← topic_record E full_text topic;
      results ← for_each_topic E full_text rest;
      Ret (r :: results)
  end.

Definition extract_insights (E : env) (transcript_segments : list Segment)
  : prog (list InsightRecord) :=
  let full_text := Str.join " " (map text transcript_segments) in
  selected_topics ←
    call (RandomSample (map fst topic_insights)
                       (Nat.min 6 (length topic_insights)));
  for_each_topic E full_text selected_topics.

(* ===================================================================== *)
(** * main: the job status tracker and the request flows *)
(* ===================================================================== *)

(** [POST /videos/process]: the answer [{"video_id", "status"}]; the
    background task is run by [submit] once this has returned. *)
Definition process_video_request (E : env) (video_url : string)
  : prog (string * string) :=
  catch
    (video_id ← lift (extract_video_id E video_url);
     redis_DELETE ("status:" +:+ video_id);;
     redis_DELETE ("error:" +:+ video_id);;
     redis_SETEX ("status:" +:+ video_id) 3600 (VText "pending");;
     Ret (video_id, "pending"))
    (fun e => Throw (HTTPException 400 (str_exn e))).

(** [GET /videos/status/{video_id}] *)
Definition get_video_status (video_id : string) : prog value :=
  status ← redis_GET ("status:" +:+ video_id);
  match status with
  | Some v => if value_truthy status then Ret v else Ret (VText "not_found")
  | None => Ret (VText "not_found")
  end.

(** [GET /videos/insights/{video_id}] *)
Definition get_video_insights (video_id : string) : prog (list InsightRecord) :=
  status ← redis_GET ("status:" +:+ video_id);
  if negb (value_truthy status) then Throw (HTTPException 404 "Video not found")
  else
    match status with
    | Some (VText "completed") =>
        insights ← redis_GET ("insights:" +:+ video_id);
        if negb (value_truthy insights)
        then Throw (HTTPException 404 "Insights not found")
        else
          match insights with
          | Some (VInsights l) => Ret l
          | Some (VTranscript _) =>
              Throw (TypeError "a transcript document under an insights key")
          | _ => Throw (JSONDecodeError "Expecting value")
          end
    | Some (VText status) =>
        Throw (HTTPException 400 ("Video processing is " +:+ status))
    | _ => Throw (HTTPException 400 "Video processing is not completed")
    end.

(** [GET /videos/error/{video_id}] *)
Definition get_video_error (video_id : string) : prog string :=
  status ← redis_GET ("status:" +:+ video_id);
  match status with
  | Some (VText "error") =>
      error ← redis_GET ("error:" +:+ video_id);
      match error with
      | Some (VText msg) => Ret (if Str.truthy msg then msg else "Unknown error")
      | _ => Ret "Unknown error"
      end
  | _ => Throw (HTTPException 404 "No error found")
  end.

(** The background task. *)
Definition process_video (E : env) (video_id video_url : string) : prog unit :=
  catch
    (redis_DELETE ("status:" +:+ video_id);;
     redis_DELETE ("error:" +:+ video_id);;
     redis_SETEX ("status:" +:+ video_id) 3600 (VText "processing");;
     transcript_data ← fetch_transcript E video_url true;
     let transcript_segments := segments transcript_data in
     insights ← extract_insights E transcript_segments;
     redis_SETEX ("insights:" +:+ video_id) 86400 (VInsights insights);;
     redis_SETEX ("status:" +:+ video_id) 3600 (VText "completed"))
    (fun e =>
       redis_SETEX ("error:" +:+ video_id) 3600 (VText (str_exn e));;
       redis_SETEX ("status:" +:+ video_id) 3600 (VText "error")).

(** A submission: the request handler, then the task it queued. *)
Definition submit (E : env) (video_url : string) : prog (string * string) :=
  answer ← process_video_request E video_url;
  process_video E (fst answer) video_url;;
  Ret answer.

(* ===================================================================== *)
(** * Vocabulary of the properties *)
(* ===================================================================== *)

(** ** Concrete environments and worlds *)

(** Nothing installed or configured, every service failing, each command
    taking one second. *)
Definition bare_env : env :=
  {| YT_DLP_AVAILABLE := false;
     OPENAI_AVAILABLE := false;
     OPENAI_API_KEY := None;
     YOUTUBE_API_KEY := None;
     check_bracketed_host := fun _ => None;
     nfkc := fun n => n;
     transcript_api := fun _ _ => ApiNoTranscript "no transcript";
     video_details_api := fun _ _ => DetailsNoItems;
     audio_download := fun _ _ => DownloadFailure "no network";
     whisper_api := fun _ _ => WhisperFailure "no network";
     chat_api := fun _ _ _ => ChatFailure "no network";
     random_index := fun _ _ => O;
     latency := fun _ => 1 |}.

(** Captions available ("good"), the language model configured and failing
    for the topic "Climate Change" only. *)
Definition flaky_env : env :=
  {| YT_DLP_AVAILABLE := true;
     OPENAI_AVAILABLE := true;
     OPENAI_API_KEY := Some "sk-test";
     YOUTUBE_API_KEY := None;
     check_bracketed_host := fun _ => None;
     nfkc := fun n => n;
     transcript_api := fun _ _ =>
       ApiSegments [ {| text := "good"; start := 0%Q; duration := 1%Q |} ];
     video_details_api := fun _ _ => DetailsNoItems;
     audio_download := fun _ _ => DownloadFailure "no network";
     whisper_api := fun _ _ => WhisperFailure "no network";
     chat_api := fun _ _ topic =>
       if String.eqb topic "Climate Change" then ChatFailure "rate limit"
       else ChatContent "- Measure
- Reduce";
     random_index := fun _ _ => O;
     latency := fun _ => 1 |}.

Definition fresh_world : world := {| now := 0; db := ∅; log := [] |}.

(** ** The store *)

(** The values written to [status:{video_id}], in order. *)
Definition status_writes (video_id : string) (l : list event) : list value :=
  omap (fun ev =>
          match ev with
          | EvSetex key _ v =>
              if String.eqb key ("status:" +:+ video_id) then Some v else None
          | _ => None
          end) l.

(** The clock when the [k]-th next command starts. *)
Fixpoint time_after (E : env) (t : Z) (n k : nat) : Z :=
  match k with
  | O => t
  | S k' => time_after E (t + latency E n) (S n) k'
  end.

Definition clock_after (E : env) (w : world) (k : nat) : Z :=
  time_after E (now w) (length (log w)) k.

(** The last command of [w] was [SETEX key ttl v], and the store holds [v]
    under [key] until [ttl] seconds after the time that command ran. *)
Definition just_cached (E : env) (w : world) (key : string) (ttl : Z) (v : value)
  : Prop :=
  exists l,
    log w = EvSetex key ttl v :: l
    /\ db w !! key
       = Some {| held := v; expires := now w - latency E (length l) + ttl |}.

(** A command of an outside service that supplies transcript text. *)
Definition provider_event (ev : event) : bool :=
  match ev with
  | EvTranscriptApi _ | EvVideoDetails _ | EvDownload _ | EvWhisper _ => true
  | _ => false
  end.


(** A stored [completed] status comes with stored, non-empty insights that
    outlive it by at least [slack] seconds. *)
Definition slack : Z := 41400.

Definition stored_ok (video_id : string) (d : gmap string entry) : Prop :=
  forall es,
    d !! ("status:" +:+ video_id) = Some es ->
    held es = VText "completed" ->
    exists ei l,
      d !! ("insights:" +:+ video_id) = Some ei
      /\ held ei = VInsights l /\ l <> []
      /\ expires es + slack <= expires ei.

(** ** The sentiment labels *)

Definition sentiment_label (s : string) : Prop :=
  s = "positive" \/ s = "negative" \/ s = "neutral".

(** The text handed to the analysis. *)
Definition full_text (transcript_segments : list Segment) : string :=
  Str.join " " (map text transcript_segments).

(** The two canned insights of [generate_insights_with_gpt]'s handler. *)
Definition generator_fallback (topic : string) : list string :=
  [ "Consider developing comprehensive sustainability policies related to "
      +:+ topic +:+ ".";
    "Monitor emerging regulations in the " +:+ topic
      +:+ " space to ensure compliance." ].

(** ** Recognized URL shapes *)

Definition web_scheme (s : string) : Prop := s = "http" \/ s = "https".

Definition youtube_host (h : string) : Prop :=
  h = "youtube.com" \/ h = "www.youtube.com" \/ h = "m.youtube.com".

(** Printable ASCII other than the space. *)
Definition url_char (c : ascii) : bool := Str.between 33 126 c.

(** An identifier: one or more letters, digits, ['_'] or ['-']. *)
Definition id_text (s : string) : Prop :=
  s <> EmptyString /\ Str.all is_id_char s = true.

(** Zero or more trailing slashes. *)
Definition slashes (s : string) : Prop := Str.all (Ascii.eqb "/") s = true.

(** Nothing, or a query or a fragment. *)
Definition url_tail (t : string) : Prop :=
  t = EmptyString \/
  exists c q, t = String c q /\ (c = "?"%char \/ c = "#"%char)
              /\ Str.all url_char q = true.

(** The same, the query or fragment holding no ['/']. *)
Definition plain_tail (t : string) : Prop :=
  t = EmptyString \/
  exists c q, t = String c q /\ (c = "?"%char \/ c = "#"%char)
              /\ Str.all url_char q = true /\ Str.mem "/" q = false.

(** A query field that stands before the [v] field and is not one: it is
    dropped by [parse_qs], or its name is not [v] and does not decode to
    [v]. *)
Definition other_field (f : string) : Prop :=
  Str.all url_char f = true
  /\ Str.mem "&" f = false
  /\ Str.mem "#" f = false
  /\ forall value, parse_field f <> Some ("v", value).

Fixpoint fields_text (fs : list string) : string :=
  match fs with
  | [] => EmptyString
  | f :: fs' => f +:+ "&" +:+ fields_text fs'
  end.

(** What may follow the [v] field: nothing, more fields, or a fragment. *)
Definition field_tail (t : string) : Prop :=
  t = EmptyString \/
  exists c q, t = String c q /\ (c = "&"%char \/ c = "#"%char)
              /\ Str.all url_char q = true.

(** [recognized url video_id]: [url] has one of the six shapes and embeds
    [video_id]. *)
Inductive recognized : string -> string -> Prop :=
| shape_short_link sch video_id sl t :
    web_scheme sch -> id_text video_id -> slashes sl -> url_tail t ->
    recognized (sch +:+ "://youtu.be/" +:+ video_id +:+ sl +:+ t) video_id
| shape_watch sch host fs video_id t :
    web_scheme sch -> youtube_host host -> Forall other_field fs ->
    id_text video_id -> field_tail t ->
    recognized (sch +:+ "://" +:+ host +:+ "/watch?" +:+ fields_text fs
                +:+ "v=" +:+ video_id +:+ t) video_id
| shape_shorts_live sch host prefix video_id sl t :
    web_scheme sch -> youtube_host host ->
    prefix = "/shorts/" \/ prefix = "/live/" ->
    id_text video_id -> slashes sl -> url_tail t ->
    recognized (sch +:+ "://" +:+ host +:+ prefix +:+ video_id +:+ sl +:+ t)
               video_id
| shape_embed_v sch host prefix video_id sl t :
    web_scheme sch -> youtube_host host ->
    prefix = "/embed/" \/ prefix = "/v/" ->
    id_text video_id -> slashes sl -> plain_tail t ->
    recognized (sch +:+ "://" +:+ host +:+ prefix +:+ video_id +:+ sl +:+ t)
               video_id.

(** ** Reasoning about programs *)

(** [wp E I p Q w]: run from [w], [p] keeps [I] in every world it passes
    through and ends with [Q]. *)
Fixpoint wp {A : Type} (E : env) (I : world -> Prop) (p : prog A)
    (Q : result A -> world -> Prop) (w : world) : Prop :=
  I w /\
  match p with
  | Ret a => Q (Ok a) w
  | Throw e => Q (Raise e) w
  | Do c k => wp E I (k (fst (exec E c w))) Q (snd (exec E c w))
  end.

(** A command that neither writes [completed] nor touches an insights key. *)
Definition quiet {X : Type} (c : cmd X) : Prop :=
  match c with
  | RedisSetex key _ v =>
      (exists x s, key = "status:" +:+ x /\ v = VText s /\ s <> "completed")
      \/ (exists x, key = "error:" +:+ x)
      \/ (exists x, key = "transcript:" +:+ x)
  | RedisDelete key =>
      exists x, key = "status:" +:+ x \/ key = "error:" +:+ x
  | _ => True
  end.

Fixpoint all_quiet {A : Type} (p : prog A) : Prop :=
  match p with
  | Do c k => quiet c /\ forall x, all_quiet (k x)
  | _ => True
  end.

(** The status of [video_id] is not stored as [completed]. *)
Definition not_completed (video_id : string) (d : gmap string entry) : Prop :=
  forall es, d !! ("status:" +:+ video_id) = Some es -> held es <> VText "completed".

Definition all_stored_ok (w : world) : Prop := forall x, stored_ok x (db w).

Definition guarded (video_id : string) (w : world) : Prop :=
  all_stored_ok w /\ not_completed video_id (db w).

(** ** Prefixes of a url that no pattern can start in *)



(** [s] has a ['.'] with a ['/'] somewhere after it; [seen] tells that the
    ['.'] has been met. *)
Fixpoint dot_then_slash (seen : bool) (s : string) : bool :=
  match s with
  | EmptyString => false
  | String c s' =>
      if seen && Ascii.eqb c "/" then true
      else dot_then_slash (seen || Ascii.eqb c ".") s'
  end.

(** ** The insight batch *)

(** The language-model call fails for [topic], whenever it is made. *)
Definition chat_fails (E : env) (topic : string) : Prop :=
  forall n text, exists msg, chat_api E n text topic = ChatFailure msg.

(** What every record of the batch satisfies. *)
Definition record_ok (E : env) (text : string) (r : InsightRecord) : Prop :=
  sentiment r = analyze_sentiment_simple text (name r)
  /\ insights r <> []
  /\ (key_set (OPENAI_API_KEY E) && OPENAI_AVAILABLE E = true ->
      chat_fails E (name r) -> insights r = generator_fallback (name r)).

(** The topics [extract_insights] draws in world [w]. *)
Definition selected_topics (E : env) (w : world) : list string :=
  sample_with (random_index E (length (log w))) (map fst topic_insights)
              (Nat.min 6 (length topic_insights)).


(** ** The transcript cache *)

(** The world after the status reset and the cache lookup of
    [get_transcript], called with a store. *)
Definition after_lookup (E : env) (video_id : string) (w : world) : world :=
  snd (run E (redis_DELETE ("error:" +:+ video_id);;
              redis_DELETE ("status:" +:+ video_id);;
              redis_SETEX ("status:" +:+ video_id) 3600 (VText "pending");;
              redis_GET ("transcript:" +:+ video_id)) w).

(** A store whose transcript entry for the demo identifier is warm. *)
Definition warm_transcript : TranscriptResult :=
  {| source := "youtube_api";
     segments := [ {| text := "good"; start := 0%Q; duration := 1%Q |} ] |}.

Definition warm_world : world :=
  {| now := 0;
     db := {[ "transcript:D9Ihs241zeg" :=
                {| held := VTranscript warm_transcript; expires := 86400 |} ]};
     log := [] |}.

(** ** Parts of a url *)



(* ===================================================================== *)
(** * The synchronous flow and further vocabulary *)
(* ===================================================================== *)

(** [POST /process]: the answer [{"topics", "transcript"}].
    [fetch_transcript] returns the dict with its ["segments"], so of the
    three format branches only the first is taken. *)
Definition process_video_endpoint (E : env) (youtube_url : string)
  : prog (list InsightRecord * string) :=
  catch
    (video_id ← lift (extract_video_id E youtube_url);
     redis_DELETE ("status:" +:+ video_id);;
     redis_DELETE ("error:" +:+ video_id);;
     transcript_data ← fetch_transcript E youtube_url true;
     let transcript_segments := segments transcript_data in
     match transcript_segments with
     | [] => Throw (ValueError "Failed to retrieve transcript - empty segments")
     | _ :: _ =>
         let full_transcript := Str.join " " (map text transcript_segments) in
         analysis_results ← extract_insights E transcript_segments;
         Ret (analysis_results, full_transcript)
     end)
    (fun e =>
       Throw (HTTPException 500 ("Error processing video: " +:+ str_exn e))).

(** The [try] block of [get_transcript], entered on a cache miss. *)
Definition transcript_chain (E : env) (video_id : string) (redis_client : bool)
  : prog TranscriptResult :=
  catch
    (catch
       (transcript_list ← fetch_transcript_from_api E video_id;
        match transcript_list with
        | Some ((_ :: _) as transcript_list) =>
            when redis_client
              (redis_SETEX ("transcript:" +:+ video_id) 86400
                 (VTranscript {| source := "youtube_api";
                                 segments := transcript_list |}));;
            Ret {| source := "youtube_api"; segments := transcript_list |}
        | _ => mock_result E video_id ("transcript:" +:+ video_id) redis_client
        end)
       (fun e =>
          if no_transcript_class e
          then mock_result E video_id ("transcript:" +:+ video_id) redis_client
          else Throw e))
    (fun e =>
       when redis_client
         (redis_SETEX ("error:" +:+ video_id) 3600 (VText (str_exn e));;
          redis_SETEX ("status:" +:+ video_id) 3600 (VText "error"));;
       Throw e).

(** The world in which a result of the chain is handed back: with a store,
    the one after the [SETEX] that caches it. *)
Definition cached_world (E : env) (video_id : string) (redis_client : bool)
    (r : TranscriptResult) (w : world) : world :=
  if redis_client then
    advance E (EvSetex ("transcript:" +:+ video_id) 86400 (VTranscript r))
      (<["transcript:" +:+ video_id :=
           {| held := VTranscript r; expires := now w + 86400 |}]> (db w)) w
  else w.

(** Since [w0] the store has not changed and every command went to an
    outside service. *)
Definition only_providers_since (w0 w : world) : Prop :=
  db w = db w0
  /\ exists evs, log w = evs ++ log w0
                 /\ Forall (fun ev => provider_event ev = true) evs.

(** A key of [video_id] in one of the four namespaces. *)
Definition key_of (video_id key : string) : Prop :=
  key = "status:" +:+ video_id \/ key = "error:" +:+ video_id
  \/ key = "transcript:" +:+ video_id \/ key = "insights:" +:+ video_id.

(** A store command names a key of [video_id]. *)
Definition within {X : Type} (video_id : string) (c : cmd X) : Prop :=
  match c with
  | RedisSetex key _ _ | RedisDelete key => key_of video_id key
  | _ => True
  end.

Fixpoint all_within {A : Type} (video_id : string) (p : prog A) : Prop :=
  match p with
  | Do c k => within video_id c /\ forall x, all_within video_id (k x)
  | _ => True
  end.


(** A command that leaves the store as it is. *)
Definition readonly {X : Type} (c : cmd X) : Prop :=
  match c with
  | RedisSetex _ _ _ | RedisDelete _ => False
  | _ => True
  end.

Fixpoint all_readonly {A : Type} (p : prog A) : Prop :=
  match p with
  | Do c k => readonly c /\ forall x, all_readonly (k x)
  | _ => True
  end.

(** The status key is absent from the store or past its expiry. *)
Definition status_gone (video_id : string) (w : world) : Prop :=
  match db w !! ("status:" +:+ video_id) with
  | Some e => expires e <= now w
  | None => True
  end.

(** The two ways the task ends: the insights and then [completed], or the
    error detail and then [error]. *)
Definition publish_completed (E : env) (video_id : string)
    (insights : list InsightRecord) (w : world) : world :=
  snd (run E (redis_SETEX ("insights:" +:+ video_id) 86400 (VInsights insights);;
              redis_SETEX ("status:" +:+ video_id) 3600 (VText "completed")) w).

Definition publish_error (E : env) (video_id detail : string) (w : world) : world :=
  snd (run E (redis_SETEX ("error:" +:+ video_id) 3600 (VText detail);;
              redis_SETEX ("status:" +:+ video_id) 3600 (VText "error")) w).

(** A key that is absent or holds a transcript document. *)
Definition holds_transcript (e : option entry) : Prop :=
  match e with
  | Some e => match held e with VTranscript _ => True | _ => False end
  | None => True
  end.

(** A text of 6001 characters: 6000 times ['a'], then [last]. *)
Definition long_text (last : ascii) : string :=
  string_of_list_ascii (repeat "a"%char (Z.to_nat 6000) ++ [last]).

(** [full_env] with a language model that answers the text it was sent. *)
Definition echo_env : env :=
  {| YT_DLP_AVAILABLE := true;
     OPENAI_AVAILABLE := true;
     OPENAI_API_KEY := Some "sk-test";
     YOUTUBE_API_KEY := Some "yt-test";
     check_bracketed_host := fun _ => None;
     nfkc := fun n => n;
     transcript_api := fun _ _ => ApiNoTranscript "no transcript";
     video_details_api := fun _ _ => DetailsNoItems;
     audio_download := fun _ _ => DownloadDone true;
     whisper_api := fun _ _ => WhisperResponse (Some "spoken words");
     chat_api := fun _ text _ => ChatContent text;
     random_index := fun _ k => k;
     latency := fun _ => 1 |}.


(* ===================================================================== *)
(** * Running programs: equations for [bind] and [catch] *)
(* ===================================================================== *)

Lemma run_bind {A B : Type} (E : env) (p : prog A) (f : A -> prog B) (w : world) :
  run E (bind p f) w =
  match run E p w with
  | (Ok a, w') => run E (f a) w'
  | (Raise e, w') => (Raise e, w')
  end.
Proof.
  revert w. induction p as [a | e | X c k IH]; intros w; simpl; try reflexivity.
  destruct (exec E c w) as [x w']. apply IH.
Qed.

Lemma run_catch {A : Type} (E : env) (p : prog A) (h : exn -> prog A) (w : world) :
  run E (catch p h) w =
  match run E p w with
  | (Ok a, w') => (Ok a, w')
  | (Raise e, w') => run E (h e) w'
  end.
Proof.
  revert w. induction p as [a | e | X c k IH]; intros w; simpl; try reflexivity.
  destruct (exec E c w) as [x w']. apply IH.
Qed.

(* ===================================================================== *)
(** * extract_video_id fails on an unbalanced bracket *)
(* ===================================================================== *)

(** C5.  [extract_video_id] is not total: [urlparse] raises [ValueError]
    on a host with an opening square bracket and no closing one, and
    nothing in [extract_video_id] catches it, so for this input the call
    raises instead of returning an identifier: the patterns, the first of
    which fits it, are never tried. *)
Theorem extract_video_id_raises (E : env) :
  extract_video_id E "https://[youtu.be/D9Ihs241zeg"
  = Raise (ValueError "Invalid IPv6 URL").
Proof. reflexivity. Qed.

(** Where [urlparse] succeeds and neither branch returns, the result is the
    first pattern match or the demo identifier. *)
Lemma extract_video_id_sentinel (E : env) (url : string) (r : ParseResult) :
  urlparse E url = Ok r ->
  Str.contains "youtu.be" (netloc r) = false ->
  youtube_com_branch r = Ok None \/
    (Str.contains "youtube.com" (netloc r) || Str.contains "m.youtube.com" (netloc r)
     = false) ->
  first_match patterns url = None ->
  extract_video_id E url = Ok demo_video_id.
Proof.
  intros Hp Hbe Hbranch Hnone. unfold extract_video_id.
  rewrite Hp, Hbe. unfold regex_fallback. rewrite Hnone.
  destruct Hbranch as [-> | ->]; [|reflexivity].
  destruct (_ || _); reflexivity.
Qed.

(* ===================================================================== *)
(** * fallback_whisper without its prerequisites *)
(* ===================================================================== *)

Lemma get_video_details_returns (E : env) (video_id : string) (w : world) :
  exists s w', run E (get_video_details E video_id) w = (Ok s, w').
Proof.
  unfold get_video_details. destruct (negb _); [simpl; eauto|].
  rewrite run_catch, run_bind. simpl.
  destruct (video_details_api E _ video_id); simpl; eauto.
Qed.

Lemma get_mock_transcript_returns (E : env) (video_id : string) (w : world) :
  exists s w', run E (get_mock_transcript E video_id) w = (Ok s, w')
               /\ s <> EmptyString.
Proof.
  unfold get_mock_transcript. rewrite run_bind.
  destruct (get_video_details_returns E video_id w) as (d & w' & ->).
  destruct (_ && _); simpl; eexists _, _; (split; [reflexivity|]);
    discriminate.
Qed.

Lemma fallback_whisper_without_yt_dlp (E : env) (video_id : string) (w : world) :
  YT_DLP_AVAILABLE E = false ->
  exists s, fst (run E (fallback_whisper E video_id) w) = Ok (PyStr s).
Proof.
  intros H. unfold fallback_whisper. rewrite H. simpl. rewrite run_bind.
  destruct (get_mock_transcript_returns E video_id w) as (s & w' & -> & _).
  simpl. eauto.
Qed.

(** C7.  With [yt_dlp] missing, [fallback_whisper] returns the mock
    transcript itself, a string, where the specification and the function's own
    docstring promise a list holding one segment with start 0.0 and
    duration 0.0; only the handler of a failed audio pipeline wraps the
    text in a segment. *)
Theorem fallback_whisper_returns_string :
  fst (run bare_env (fallback_whisper bare_env "D9Ihs241zeg") fresh_world)
  = Ok (PyStr mock_generic).
Proof. reflexivity. Qed.

(* ===================================================================== *)
(** * The status written during a submission *)
(* ===================================================================== *)

(** C2.  A submission writes [pending], then the task writes [processing],
    and [get_transcript], called by the task, deletes the status and writes
    [pending] again before the task writes [completed]: the status moves
    back from [processing] to [pending] within one submission. *)
Theorem status_returns_to_pending :
  status_writes "D9Ihs241zeg"
    (history (snd (run flaky_env (submit flaky_env "https://youtu.be/D9Ihs241zeg")
                       fresh_world)))
  = [VText "pending"; VText "processing"; VText "pending"; VText "completed"].
Proof. vm_compute. reflexivity. Qed.

(* ===================================================================== *)
(** * The insight batch *)
(* ===================================================================== *)

Lemma analyze_sentiment_simple_label (text topic : string) :
  sentiment_label (analyze_sentiment_simple text topic).
Proof.
  unfold analyze_sentiment_simple, sentiment_label.
  destruct (_ <? _); [auto|]. destruct (_ <? _); auto.
Qed.

Lemma analyze_sentiment_simple_topic (text topic1 topic2 : string) :
  analyze_sentiment_simple text topic1 = analyze_sentiment_simple text topic2.
Proof. reflexivity. Qed.

Lemma parse_bullets_nonempty (insights_text : string) :
  parse_bullets insights_text <> [].
Proof.
  unfold parse_bullets.
  destruct (map _ (filter _ _)) as [|x xs]; [|discriminate].
  destruct (filter _ _); discriminate.
Qed.

Lemma dict_get_in (key : string) (d : list (string * list string))
    (v : list string) :
  dict_get key d = Some v -> exists k, In (k, v) d.
Proof.
  induction d as [|[k u] d IH]; simpl; [discriminate|].
  destruct (String.eqb k key).
  - intros [= <-]. eauto.
  - intros H. destruct (IH H) as (k' & Hk). eauto.
Qed.

Lemma dict_get_nonempty (key : string) (v : list string) :
  dict_get key topic_insights = Some v -> v <> [].
Proof.
  intros H. apply dict_get_in in H as (k & Hin).
  unfold topic_insights in Hin. simpl in Hin.
  repeat (destruct Hin as [[= <- <-]|Hin]; [discriminate|]).
  destruct Hin.
Qed.

Lemma predefined_insights_nonempty (topic : string) :
  predefined_insights topic <> [].
Proof.
  unfold predefined_insights.
  destruct (dict_get topic topic_insights) as [v|] eqn:Hv; simpl.
  - eapply dict_get_nonempty, Hv.
  - discriminate.
Qed.

Lemma generate_insights_with_gpt_returns (E : env) (text topic : string) (w : world) :
  exists l w',
    run E (generate_insights_with_gpt E text topic) w = (Ok l, w')
    /\ l <> []
    /\ (negb (OPENAI_AVAILABLE E) || negb (key_set (OPENAI_API_KEY E)) = false ->
        chat_fails E topic -> l = generator_fallback topic).
Proof.
  unfold generate_insights_with_gpt. rewrite run_catch.
  destruct (negb _ || negb _) eqn:Hcfg.
  - simpl. eexists _, _. split; [reflexivity|]. split; [discriminate|].
    discriminate.
  - rewrite run_bind. cbn [call run exec fst snd].
    set (t := if (_ <? _)%nat then _ else _).
    destruct (chat_api E (length (log w)) t topic) as [content|msg] eqn:Hc.
    + cbn [run]. eexists _, _. split; [reflexivity|].
      split; [apply parse_bullets_nonempty|].
      intros _ Hf. destruct (Hf (length (log w)) t) as [msg Hmsg]. congruence.
    + cbn [run]. eexists _, _. split; [reflexivity|].
      split; [discriminate|]. reflexivity.
Qed.

Lemma topic_record_returns (E : env) (text topic : string) (w : world) :
  exists r w',
    run E (topic_record E text topic) w = (Ok r, w')
    /\ name r = topic /\ record_ok E text r.
Proof.
  unfold topic_record. rewrite run_catch, run_bind.
  destruct (key_set _ && OPENAI_AVAILABLE E) eqn:Hcfg.
  - rewrite run_catch.
    destruct (generate_insights_with_gpt_returns E text topic w)
      as (l & w' & -> & Hne & Hfail).
    cbn [run]. eexists _, _. split; [reflexivity|]. split; [reflexivity|].
    repeat split; cbn [sentiment insights name]; try assumption.
    intros _. apply Hfail.
    apply andb_true_iff in Hcfg as [-> ->]. reflexivity.
  - cbn [run]. eexists _, _. split; [reflexivity|]. split; [reflexivity|].
    repeat split; cbn [sentiment insights name].
    + apply predefined_insights_nonempty.
    + congruence.
Qed.

Lemma for_each_topic_returns (E : env) (text : string) (topics : list string)
    (w : world) :
  exists recs w',
    run E (for_each_topic E text topics) w = (Ok recs, w')
    /\ map name recs = topics /\ Forall (record_ok E text) recs.
Proof.
  revert w. induction topics as [|topic rest IH]; intros w.
  - simpl. eexists _, _. split; [reflexivity|]. split; [reflexivity|constructor].
  - cbn [for_each_topic]. rewrite run_bind.
    destruct (topic_record_returns E text topic w) as (r & w1 & -> & Hn & Hok).
    rewrite run_bind.
    destruct (IH w1) as (recs & w2 & -> & Hnames & Hall).
    cbn [run]. eexists _, _. split; [reflexivity|].
    split; [cbn; congruence|]. constructor; assumption.
Qed.

Lemma sample_with_length (rnd : nat -> nat) (k : nat) (population : list string) :
  (k <= length population)%nat -> length (sample_with rnd population k) = k.
Proof.
  revert population. induction k as [|k IH]; intros population Hk; [reflexivity|].
  destruct population as [|x xs]; [simpl in Hk; lia|].
  cbn [sample_with]. cbn [length]. f_equal. apply IH.
  set (i := (rnd k mod length (x :: xs))%nat).
  assert (Hi : (i < length (x :: xs))%nat).
  { apply Nat.mod_upper_bound. simpl. lia. }
  rewrite length_delete; [simpl in *; lia|].
  apply lookup_lt_is_Some_2, Hi.
Qed.

Lemma extract_insights_returns (E : env) (segs : list Segment) (w : world) :
  exists recs w',
    run E (extract_insights E segs) w = (Ok recs, w')
    /\ map name recs = selected_topics E w
    /\ length recs = 6%nat
    /\ Forall (record_ok E (full_text segs)) recs.
Proof.
  unfold extract_insights. rewrite run_bind. cbn [call run exec fst snd].
  fold (selected_topics E w). fold (full_text segs).
  destruct (for_each_topic_returns E (full_text segs) (selected_topics E w)
              (advance E EvSample (db w) w)) as (recs & w' & -> & Hn & Hall).
  eexists _, _. split; [reflexivity|]. split; [assumption|]. split; [|assumption].
  rewrite <- (length_map name), Hn. unfold selected_topics.
  apply sample_with_length. simpl. lia.
Qed.

(** C9.  For every list of transcript segments [extract_insights] returns
    exactly six records; each has a sentiment among [positive], [negative]
    and [neutral], and a non-empty list of insights. *)
Theorem extract_insights_six_records (E : env) (segs : list Segment) (w : world) :
  exists recs,
    fst (run E (extract_insights E segs) w) = Ok recs
    /\ length recs = 6%nat
    /\ Forall (fun r => sentiment_label (sentiment r) /\ insights r <> []) recs.
Proof.
  destruct (extract_insights_returns E segs w) as (recs & w' & Hrun & _ & Hlen & Hall).
  exists recs. rewrite Hrun. split; [reflexivity|]. split; [assumption|].
  eapply Forall_impl; [exact Hall|].
  intros r (Hs & Hne & _). split; [|assumption].
  rewrite Hs. apply analyze_sentiment_simple_label.
Qed.

(** C10.  [analyze_sentiment_simple] does not depend on its topic: two
    calls on the same text return the same label whatever the topics, and
    so every record of one [extract_insights] batch carries the same
    sentiment, the one of the full text. *)
Theorem sentiment_ignores_topic (E : env) (segs : list Segment) (w : world)
    (text topic1 topic2 : string) :
  analyze_sentiment_simple text topic1 = analyze_sentiment_simple text topic2
  /\ exists recs,
       fst (run E (extract_insights E segs) w) = Ok recs
       /\ Forall (fun r => sentiment r
                           = analyze_sentiment_simple (full_text segs) topic1) recs.
Proof.
  split; [reflexivity|].
  destruct (extract_insights_returns E segs w) as (recs & w' & Hrun & _ & _ & Hall).
  exists recs. rewrite Hrun. split; [reflexivity|].
  eapply Forall_impl; [exact Hall|].
  intros r (Hs & _). rewrite Hs. reflexivity.
Qed.

(** C8, as stated, fails: with the text "good" and the language model
    failing for "Climate Change", the batch has six records and the record
    of the failing topic carries the canned insights, but its sentiment is
    [positive], not [neutral]. *)
Lemma failing_topic_not_neutral :
  chat_fails flaky_env "Climate Change"
  /\ exists r rest,
       fst (run flaky_env
              (extract_insights flaky_env
                 [ {| text := "good"; start := 0%Q; duration := 1%Q |} ])
              fresh_world) = Ok (r :: rest)
       /\ length (r :: rest) = 6%nat
       /\ name r = "Climate Change"
       /\ insights r = generator_fallback "Climate Change"
       /\ sentiment r = "positive"
       /\ sentiment r <> "neutral".
Proof.
  split.
  - intros n text. eexists. reflexivity.
  - eexists _, _. split; [vm_compute; reflexivity|].
    repeat split; discriminate.
Qed.

(** C8, amended.  If the language-model call fails for a topic, the batch
    still has six records, one per selected topic; the record of the failing
    topic carries the two canned insights of the generator's handler, and
    its sentiment is the keyword sentiment of the full text, as for every
    other record. *)
Theorem generator_failure_keeps_batch (E : env) (segs : list Segment) (w : world)
    (topic : string) :
  key_set (OPENAI_API_KEY E) && OPENAI_AVAILABLE E = true ->
  chat_fails E topic ->
  exists recs,
    fst (run E (extract_insights E segs) w) = Ok recs
    /\ length recs = 6%nat
    /\ map name recs = selected_topics E w
    /\ forall r, r ∈ recs -> name r = topic ->
         insights r = generator_fallback topic
         /\ insights r <> []
         /\ sentiment r = analyze_sentiment_simple (full_text segs) topic.
Proof.
  intros Hcfg Hfail.
  destruct (extract_insights_returns E segs w) as (recs & w' & Hrun & Hn & Hlen & Hall).
  exists recs. rewrite Hrun. split; [reflexivity|]. split; [assumption|].
  split; [assumption|].
  intros r Hr Hname. rewrite Forall_forall in Hall.
  destruct (Hall r Hr) as (Hs & Hne & Hfb). subst topic.
  split; [auto|]. split; [assumption|]. assumption.
Qed.

Lemma generator_failure_keeps_batch_witness :
  exists recs,
    fst (run flaky_env
           (extract_insights flaky_env
              [ {| text := "good"; start := 0%Q; duration := 1%Q |} ])
           fresh_world) = Ok recs
    /\ length recs = 6%nat
    /\ map name recs = selected_topics flaky_env fresh_world
    /\ forall r, r ∈ recs -> name r = "Climate Change" ->
         insights r = generator_fallback "Climate Change"
         /\ insights r <> []
         /\ sentiment r
            = analyze_sentiment_simple
                (full_text [ {| text := "good"; start := 0%Q; duration := 1%Q |} ])
                "Climate Change".
Proof.
  apply generator_failure_keeps_batch.
  - reflexivity.
  - intros n text. eexists. reflexivity.
Defined.

(* ===================================================================== *)
(** * The transcript chain and its cache *)
(* ===================================================================== *)

Lemma status_transcript_ne (a b : string) : "status:" +:+ a <> "transcript:" +:+ b.
Proof. discriminate. Qed.

Lemma error_transcript_ne (a b : string) : "error:" +:+ a <> "transcript:" +:+ b.
Proof. discriminate. Qed.

(** The store after the status reset that opens [get_transcript] holds what
    it held under the transcript key. *)
Lemma reset_keeps_transcript (d : gmap string entry) (video_id : string) (e : entry) :
  <["status:" +:+ video_id := e]>
    (delete ("status:" +:+ video_id) (delete ("error:" +:+ video_id) d))
  !! ("transcript:" +:+ video_id)
  = d !! ("transcript:" +:+ video_id).
Proof.
  rewrite lookup_insert_ne by apply status_transcript_ne.
  rewrite lookup_delete_ne by apply status_transcript_ne.
  rewrite lookup_delete_ne by apply error_transcript_ne.
  reflexivity.
Qed.






Lemma after_lookup_facts (E : env) (video_id : string) (w : world) :
  db (after_lookup E video_id w) !! ("transcript:" +:+ video_id)
  = db w !! ("transcript:" +:+ video_id)
  /\ now (after_lookup E video_id w) = clock_after E w 4
  /\ log (after_lookup E video_id w)
     = [ EvGet ("transcript:" +:+ video_id);
         EvSetex ("status:" +:+ video_id) 3600 (VText "pending");
         EvDelete ("status:" +:+ video_id);
         EvDelete ("error:" +:+ video_id) ] ++ log w.
Proof.
  unfold after_lookup.
  cbn [bind redis_DELETE redis_SETEX redis_GET call run exec fst snd].
  unfold advance, clock_after. cbn [now db log length time_after app].
  rewrite reset_keeps_transcript. repeat split; reflexivity.
Qed.

(** One call on a warm cache. *)
Lemma warm_cache_call (E : env) (video_id : string) (w : world) (e : entry)
    (r : TranscriptResult) :
  db w !! ("transcript:" +:+ video_id) = Some e ->
  held e = VTranscript r ->
  clock_after E w 3 < expires e ->
  run E (get_transcript E video_id true) w = (Ok r, after_lookup E video_id w).
Proof.
  intros He Hr Hlive. apply Z.ltb_lt in Hlive.
  unfold get_transcript, after_lookup.
  cbn [when bind redis_DELETE redis_SETEX redis_GET call run exec fst snd].
  unfold redis_get, advance, clock_after in *.
  cbn [now db log length time_after] in *.
  rewrite reset_keeps_transcript, He. cbn [live]. rewrite Hlive, Hr.
  reflexivity.
Qed.

(** A primary success is cached like the synthetic result. *)
Lemma primary_success_cached (E : env) (video_id : string) (w : world)
    (x : Segment) (l : list Segment) :
  value_truthy (live (clock_after E w 3)
                     (db w !! ("transcript:" +:+ video_id))) = false ->
  transcript_api E (4 + length (log w)) video_id = ApiSegments (x :: l) ->
  exists w',
    run E (get_transcript E video_id true) w
    = (Ok {| source := "youtube_api"; segments := x :: l |}, w')
    /\ just_cached E w' ("transcript:" +:+ video_id) 86400
         (VTranscript {| source := "youtube_api"; segments := x :: l |}).
Proof.
  intros Hmiss Hapi. unfold get_transcript.
  cbn [when bind redis_DELETE redis_SETEX redis_GET call run exec fst snd].
  unfold redis_get, advance, clock_after in *.
  cbn [now db log length time_after] in *.
  rewrite reset_keeps_transcript, Hmiss.
  rewrite !run_catch, run_bind.
  unfold fetch_transcript_from_api. rewrite run_catch, run_bind.
  cbn [call run exec fst snd log length]. cbn [Nat.add] in Hapi. rewrite Hapi.
  cbn [run when bind redis_SETEX call exec fst snd].
  eexists. split; [reflexivity|].
  eexists. split; [reflexivity|].
  unfold advance. cbn [db now log length].
  rewrite lookup_insert_eq. do 2 f_equal. lia.
Qed.

(** C4.  With the transcript cache entry of an identifier populated and
    live at both lookups, two calls of [get_transcript] with that
    identifier and the same store both return the cached document, the
    same for both; the entry is left as it was and no command of the two
    calls goes to a transcript provider. *)
Theorem warm_cache_idempotent (E : env) (video_id : string) (w : world)
    (e : entry) (r : TranscriptResult) :
  db w !! ("transcript:" +:+ video_id) = Some e ->
  held e = VTranscript r ->
  clock_after E w 3 < expires e ->
  clock_after E w 7 < expires e ->
  exists w1 w2 evs,
    run E (get_transcript E video_id true) w = (Ok r, w1)
    /\ run E (get_transcript E video_id true) w1 = (Ok r, w2)
    /\ db w2 !! ("transcript:" +:+ video_id) = Some e
    /\ log w2 = evs ++ log w
    /\ Forall (fun ev => provider_event ev = false) evs.
Proof.
  intros He Hr H3 H7.
  destruct (after_lookup_facts E video_id w) as (Hdb1 & Hnow1 & Hlog1).
  set (w1 := after_lookup E video_id w) in *.
  destruct (after_lookup_facts E video_id w1) as (Hdb2 & Hnow2 & Hlog2).
  exists w1, (after_lookup E video_id w1). eexists.
  split; [apply (warm_cache_call E video_id w e r He Hr H3)|].
  split.
  { apply (warm_cache_call E video_id w1 e r); [congruence|assumption|].
    unfold clock_after in *. rewrite Hnow1, Hlog1.
    cbn [length app time_after] in *. exact H7. }
  split; [congruence|].
  split; [rewrite Hlog2, Hlog1, app_assoc; reflexivity|].
  repeat constructor.
Qed.

Lemma warm_cache_idempotent_witness :
  exists w1 w2 evs,
    run bare_env (get_transcript bare_env "D9Ihs241zeg" true) warm_world
    = (Ok warm_transcript, w1)
    /\ run bare_env (get_transcript bare_env "D9Ihs241zeg" true) w1
       = (Ok warm_transcript, w2)
    /\ db w2 !! ("transcript:" +:+ "D9Ihs241zeg")
       = Some {| held := VTranscript warm_transcript; expires := 86400 |}
    /\ log w2 = evs ++ log warm_world
    /\ Forall (fun ev => provider_event ev = false) evs.
Proof.
  apply (warm_cache_idempotent bare_env "D9Ihs241zeg" warm_world
           {| held := VTranscript warm_transcript; expires := 86400 |}
           warm_transcript); reflexivity.
Defined.

(* ===================================================================== *)
(** * A program logic over the visited worlds *)
(* ===================================================================== *)

Section ProgramLogic.

Context {A : Type} (E : env).

Lemma wp_inv (I : world -> Prop) (p : prog A) (Q : result A -> world -> Prop)
    (w : world) :
  wp E I p Q w -> I w.
Proof. destruct p; simpl; tauto. Qed.

Lemma wp_mono (I : world -> Prop) (p : prog A) (Q Q' : result A -> world -> Prop)
    (w : world) :
  (forall r w', Q r w' -> Q' r w') -> wp E I p Q w -> wp E I p Q' w.
Proof.
  intros HQ. revert w. induction p as [a | e | X c k IH]; simpl; intros w [Hi Hp];
    (split; [assumption|]); auto.
Qed.

Lemma wp_weaken (I I' : world -> Prop) (p : prog A) (Q : result A -> world -> Prop)
    (w : world) :
  (forall w', I w' -> I' w') -> wp E I p Q w -> wp E I' p Q w.
Proof.
  intros HI. revert w. induction p as [a | e | X c k IH]; simpl; intros w [Hi Hp];
    (split; [auto|]); auto.
Qed.

Lemma wp_result (I : world -> Prop) (p : prog A) (Q : result A -> world -> Prop)
    (w : world) :
  wp E I p Q w ->
  wp E I p (fun r w' => Q r w' /\ run E p w = (r, w')) w.
Proof.
  revert w. induction p as [a | e | X c k IH]; simpl; intros w [Hi Hp];
    (split; [assumption|]); auto.
  destruct (exec E c w) as [x w1]. simpl in *. apply IH, Hp.
Qed.

Lemma wp_visits (I : world -> Prop) (p : prog A) (Q : result A -> world -> Prop)
    (w : world) :
  wp E I p Q w ->
  Forall I (visits E p w) /\ Q (fst (run E p w)) (snd (run E p w)).
Proof.
  revert w. induction p as [a | e | X c k IH]; simpl; intros w [Hi Hp].
  - split; [repeat constructor; assumption|assumption].
  - split; [repeat constructor; assumption|assumption].
  - destruct (exec E c w) as [x w1]. simpl in *.
    destruct (IH x w1 Hp) as [Hv Hq]. split; [constructor; assumption|assumption].
Qed.

Lemma wp_catch (I : world -> Prop) (p : prog A) (h : exn -> prog A)
    (Q : result A -> world -> Prop) (w : world) :
  wp E I p (fun r w' => match r with
                        | Ok a => Q (Ok a) w'
                        | Raise e => wp E I (h e) Q w'
                        end) w ->
  wp E I (catch p h) Q w.
Proof.
  revert w. induction p as [a | e | X c k IH]; simpl; intros w [Hi Hp].
  - split; assumption.
  - assumption.
  - split; [assumption|]. apply IH, Hp.
Qed.

Lemma wp_call {X : Type} (I : world -> Prop) (c : cmd X)
    (Q : result X -> world -> Prop) (w : world) :
  I w -> I (snd (exec E c w)) -> Q (Ok (fst (exec E c w))) (snd (exec E c w)) ->
  wp E I (call c) Q w.
Proof. intros H1 H2 H3. simpl. auto. Qed.

End ProgramLogic.

Lemma wp_bind {A B : Type} (E : env) (I : world -> Prop) (p : prog A)
    (f : A -> prog B) (Q : result B -> world -> Prop) (w : world) :
  wp E I p (fun r w' => match r with
                        | Ok a => wp E I (f a) Q w'
                        | Raise e => Q (Raise e) w'
                        end) w ->
  wp E I (bind p f) Q w.
Proof.
  revert w. induction p as [a | e | X c k IH]; simpl; intros w [Hi Hp].
  - assumption.
  - split; assumption.
  - split; [assumption|]. apply IH, Hp.
Qed.

(** ** Quiet programs *)

Lemma all_quiet_bind {A B : Type} (p : prog A) (f : A -> prog B) :
  all_quiet p -> (forall a, all_quiet (f a)) -> all_quiet (bind p f).
Proof.
  intros Hp Hf. induction p as [a | e | X c k IH]; simpl in *; auto.
  destruct Hp as [Hc Hk]. split; auto.
Qed.

Lemma all_quiet_catch {A : Type} (p : prog A) (h : exn -> prog A) :
  all_quiet p -> (forall e, all_quiet (h e)) -> all_quiet (catch p h).
Proof.
  intros Hp Hh. induction p as [a | e | X c k IH]; simpl in *; auto.
  destruct Hp as [Hc Hk]. split; auto.
Qed.

Lemma all_quiet_call {X : Type} (c : cmd X) : quiet c -> all_quiet (call c).
Proof. intros H. simpl. auto. Qed.

Ltac quiet_command :=
  cbn [quiet];
  first [ exact I
        | left; eexists _, _; repeat split; discriminate
        | right; left; eexists; reflexivity
        | right; right; eexists; reflexivity
        | eexists; left; reflexivity
        | eexists; right; reflexivity ].

Ltac quiet_step :=
  lazymatch goal with
  | |- all_quiet (bind _ _) => apply all_quiet_bind; [|intros]
  | |- all_quiet (catch _ _) => apply all_quiet_catch; [|intros]
  | |- all_quiet (call _) => apply all_quiet_call; quiet_command
  | |- all_quiet (redis_GET _) => apply all_quiet_call; quiet_command
  | |- all_quiet (redis_SETEX _ _ _) => apply all_quiet_call; quiet_command
  | |- all_quiet (redis_DELETE _) => apply all_quiet_call; quiet_command
  | |- all_quiet (Ret _) => exact I
  | |- all_quiet (Throw _) => exact I
  | |- all_quiet (lift ?r) => destruct r; exact I
  | |- all_quiet (when ?b _) => destruct b; cbn [when]
  | |- all_quiet (match ?x with _ => _ end) => destruct x
  end.

Lemma get_video_details_quiet (E : env) (video_id : string) :
  all_quiet (get_video_details E video_id).
Proof. unfold get_video_details. repeat quiet_step. Qed.

Lemma get_mock_transcript_quiet (E : env) (video_id : string) :
  all_quiet (get_mock_transcript E video_id).
Proof.
  unfold get_mock_transcript. quiet_step; [apply get_video_details_quiet|].
  repeat quiet_step.
Qed.

Lemma mock_result_quiet (E : env) (video_id : string) (redis_client : bool) :
  all_quiet (mock_result E video_id ("transcript:" +:+ video_id) redis_client).
Proof.
  unfold mock_result. quiet_step; [apply get_mock_transcript_quiet|].
  repeat quiet_step.
Qed.

Lemma get_transcript_quiet (E : env) (video_id : string) (redis_client : bool) :
  all_quiet (get_transcript E video_id redis_client).
Proof.
  unfold get_transcript, fetch_transcript_from_api, json_loads_transcript.
  repeat first [ apply mock_result_quiet | quiet_step ].
Qed.

Lemma fetch_transcript_quiet (E : env) (url : string) (redis_client : bool) :
  all_quiet (fetch_transcript E url redis_client).
Proof.
  unfold fetch_transcript. quiet_step; [quiet_step|]. apply get_transcript_quiet.
Qed.

Lemma topic_record_quiet (E : env) (text topic : string) :
  all_quiet (topic_record E text topic).
Proof.
  unfold topic_record, generate_insights_with_gpt. repeat quiet_step.
Qed.

Lemma extract_insights_quiet (E : env) (segs : list Segment) :
  all_quiet (extract_insights E segs).
Proof.
  unfold extract_insights. quiet_step; [quiet_step|].
  match goal with |- all_quiet (for_each_topic _ _ ?l) => induction l as [|t l IH] end.
  - exact I.
  - cbn [for_each_topic]. quiet_step; [apply topic_record_quiet|].
    quiet_step; [exact IH|]. quiet_step.
Qed.

(* ===================================================================== *)
(** * The job status tracker: completed implies insights *)
(* ===================================================================== *)

Lemma append_cancel (p a b : string) : p +:+ a = p +:+ b -> a = b.
Proof.
  induction p as [|c p IH]; simpl; intros H; [assumption|].
  injection H as H. auto.
Qed.

(** [stored_ok] and [not_completed] read two keys only. *)
Lemma stored_ok_ext (x : string) (d d' : gmap string entry) :
  d' !! ("status:" +:+ x) = d !! ("status:" +:+ x) ->
  d' !! ("insights:" +:+ x) = d !! ("insights:" +:+ x) ->
  stored_ok x d -> stored_ok x d'.
Proof.
  intros Hs Hi Hok es Hes Hheld. rewrite Hs in Hes.
  destruct (Hok es Hes Hheld) as (ei & l & H1 & H2). exists ei, l.
  rewrite Hi. auto.
Qed.

Lemma stored_ok_vacuous (x : string) (d : gmap string entry) :
  not_completed x d -> stored_ok x d.
Proof. intros Hn es Hes Hheld. destruct (Hn es Hes Hheld). Qed.

Lemma not_completed_ext (x : string) (d d' : gmap string entry) :
  d' !! ("status:" +:+ x) = d !! ("status:" +:+ x) ->
  not_completed x d -> not_completed x d'.
Proof. intros Hs Hn es Hes. rewrite Hs in Hes. eauto. Qed.

Lemma not_completed_insert (x key : string) (e : entry) (d : gmap string entry) :
  held e <> VText "completed" ->
  not_completed x d -> not_completed x (<[key := e]> d).
Proof.
  intros He Hn es Hes.
  destruct (decide (key = "status:" +:+ x)) as [->|Hne].
  - rewrite lookup_insert_eq in Hes. congruence.
  - rewrite lookup_insert_ne in Hes by assumption. eauto.
Qed.

Lemma not_completed_delete (x key : string) (d : gmap string entry) :
  not_completed x d -> not_completed x (delete key d).
Proof.
  intros Hn es Hes.
  destruct (decide (key = "status:" +:+ x)) as [->|Hne].
  - rewrite lookup_delete_eq in Hes. discriminate.
  - rewrite lookup_delete_ne in Hes by assumption. eauto.
Qed.

(** Writing a status other than [completed]. *)
Lemma stored_ok_insert_status (x y : string) (e : entry) (d : gmap string entry) :
  held e <> VText "completed" ->
  stored_ok x d -> stored_ok x (<["status:" +:+ y := e]> d).
Proof.
  intros He Hok.
  destruct (decide ("status:" +:+ y = "status:" +:+ x)) as [Heq|Hne].
  - apply stored_ok_vacuous. intros es Hes. rewrite Heq, lookup_insert_eq in Hes.
    congruence.
  - eapply stored_ok_ext; [| |exact Hok].
    + apply lookup_insert_ne. assumption.
    + apply lookup_insert_ne. discriminate.
Qed.

Lemma stored_ok_delete_status (x y : string) (d : gmap string entry) :
  stored_ok x d -> stored_ok x (delete ("status:" +:+ y) d).
Proof.
  intros Hok.
  destruct (decide ("status:" +:+ y = "status:" +:+ x)) as [Heq|Hne].
  - apply stored_ok_vacuous. intros es Hes. rewrite Heq, lookup_delete_eq in Hes.
    discriminate.
  - eapply stored_ok_ext; [| |exact Hok].
    + apply lookup_delete_ne. assumption.
    + apply lookup_delete_ne. discriminate.
Qed.

Lemma quiet_exec_stored_ok {X : Type} (E : env) (c : cmd X) (w : world) (x : string) :
  quiet c -> stored_ok x (db w) -> stored_ok x (db (snd (exec E c w))).
Proof.
  intros Hq Hok. destruct c; cbn [exec snd advance db]; try assumption.
  - destruct Hq as [(y & s & -> & -> & Hs) | [(y & ->) | (y & ->)]].
    + apply stored_ok_insert_status; [|assumption]. cbn. congruence.
    + eapply stored_ok_ext; [| |exact Hok]; apply lookup_insert_ne; discriminate.
    + eapply stored_ok_ext; [| |exact Hok]; apply lookup_insert_ne; discriminate.
  - destruct Hq as (y & [-> | ->]).
    + apply stored_ok_delete_status. assumption.
    + eapply stored_ok_ext; [| |exact Hok]; apply lookup_delete_ne; discriminate.
Qed.

Lemma quiet_exec_not_completed {X : Type} (E : env) (c : cmd X) (w : world)
    (x : string) :
  quiet c -> not_completed x (db w) -> not_completed x (db (snd (exec E c w))).
Proof.
  intros Hq Hn. destruct c; cbn [exec snd advance db]; try assumption.
  - destruct Hq as [(y & s & -> & -> & Hs) | [(y & ->) | (y & ->)]].
    + apply not_completed_insert; [|assumption]. cbn. congruence.
    + eapply not_completed_ext; [|exact Hn]. apply lookup_insert_ne. discriminate.
    + eapply not_completed_ext; [|exact Hn]. apply lookup_insert_ne. discriminate.
  - apply not_completed_delete. assumption.
Qed.

Lemma quiet_exec_guarded {X : Type} (E : env) (c : cmd X) (w : world)
    (video_id : string) :
  quiet c -> guarded video_id w -> guarded video_id (snd (exec E c w)).
Proof.
  intros Hq [Hok Hn]. split.
  - intros x. apply quiet_exec_stored_ok; [assumption|apply Hok].
  - apply quiet_exec_not_completed; assumption.
Qed.

(** A quiet program keeps the status of [video_id] away from [completed]
    and every stored [completed] backed by insights. *)
Lemma wp_quiet {A : Type} (E : env) (video_id : string) (p : prog A) (w : world) :
  all_quiet p -> guarded video_id w ->
  wp E all_stored_ok p (fun _ w' => guarded video_id w') w.
Proof.
  revert w. induction p as [a | e | X c k IH]; simpl; intros w Hq Hg.
  - split; [apply Hg|assumption].
  - split; [apply Hg|assumption].
  - destruct Hq as [Hc Hk]. split; [apply Hg|].
    apply IH; [apply Hk|]. apply quiet_exec_guarded; assumption.
Qed.

(** The first command of the task. *)
Lemma delete_status_guards (E : env) (video_id : string) (w : world) :
  all_stored_ok w ->
  wp E all_stored_ok (redis_DELETE ("status:" +:+ video_id))
     (fun r w' => guarded video_id w') w.
Proof.
  intros Hok.
  assert (Hg : guarded video_id
                 (snd (exec E (RedisDelete ("status:" +:+ video_id)) w))).
  { split.
    - intros x. apply quiet_exec_stored_ok; [|apply Hok].
      eexists. left. reflexivity.
    - intros es Hes. cbn [exec snd advance db] in Hes.
      rewrite lookup_delete_eq in Hes. discriminate. }
  apply wp_call; [assumption|apply Hg|exact Hg].
Qed.

(** The last two commands of the task: the insights, then [completed]. *)
Lemma publish_keeps_ok (E : env) (video_id : string)
    (recs : list InsightRecord) (w : world) :
  (forall n, latency E n <= slack) ->
  recs <> [] ->
  guarded video_id w ->
  wp E all_stored_ok
     (redis_SETEX ("insights:" +:+ video_id) 86400 (VInsights recs);;
      redis_SETEX ("status:" +:+ video_id) 3600 (VText "completed"))
     (fun r w' => r = Ok tt /\ all_stored_ok w') w.
Proof.
  intros Hlat Hne [Hok Hn].
  cbn [bind redis_SETEX call wp exec fst snd].
  set (w1 := advance E _ _ w).
  set (w2 := advance E _ _ w1).
  assert (H1 : all_stored_ok w1).
  { intros x. subst w1. cbn [advance db].
    destruct (decide (x = video_id)) as [->|Hx].
    - apply stored_ok_vacuous.
      eapply not_completed_ext; [|exact Hn]. apply lookup_insert_ne. discriminate.
    - eapply stored_ok_ext; [| |apply (Hok x)].
      + apply lookup_insert_ne. discriminate.
      + apply lookup_insert_ne. intros Heq. apply append_cancel in Heq. congruence. }
  assert (H2 : all_stored_ok w2).
  { intros x. subst w2. cbn [advance db].
    destruct (decide (x = video_id)) as [->|Hx].
    - intros es Hes Hheld. rewrite lookup_insert_eq in Hes.
      injection Hes as <-.
      eexists _, recs. rewrite lookup_insert_ne by discriminate.
      subst w1. cbn [advance db now]. rewrite lookup_insert_eq.
      split; [reflexivity|]. split; [reflexivity|]. split; [assumption|].
      cbn [expires]. pose proof (Hlat (length (log w))). unfold slack in *. lia.
    - eapply stored_ok_ext; [| |apply (H1 x)].
      + apply lookup_insert_ne. intros Heq. apply append_cancel in Heq. congruence.
      + apply lookup_insert_ne. discriminate. }
  split; [exact Hok|]. split; [exact H1|]. split; [exact H2|].
  split; [reflexivity|exact H2].
Qed.

(** The handler of the task. *)
Lemma error_handler_keeps_ok (E : env) (video_id : string) (e : exn) (w : world) :
  guarded video_id w ->
  wp E all_stored_ok
     (redis_SETEX ("error:" +:+ video_id) 3600 (VText (str_exn e));;
      redis_SETEX ("status:" +:+ video_id) 3600 (VText "error"))
     (fun _ w' => all_stored_ok w') w.
Proof.
  intros Hg. eapply wp_mono; [|apply (wp_quiet E video_id); [|exact Hg]].
  - intros r w' H. apply H.
  - repeat quiet_step.
Qed.

(** The task keeps every stored [completed] backed by insights, in every
    world it passes through. *)
Lemma process_video_keeps_ok (E : env) (video_id video_url : string) (w : world) :
  (forall n, latency E n <= slack) ->
  all_stored_ok w ->
  wp E all_stored_ok (process_video E video_id video_url)
     (fun _ w' => all_stored_ok w') w.
Proof.
  intros Hlat Hok. unfold process_video. apply wp_catch.
  apply wp_bind. eapply wp_mono; [|apply delete_status_guards, Hok].
  intros r w1 Hg1. cbv beta. destruct r as [[]|e];
    [|apply error_handler_keeps_ok, Hg1].
  apply wp_bind. eapply wp_mono;
    [|apply (wp_quiet E video_id); [repeat quiet_step|exact Hg1]].
  intros r w2 Hg2. cbv beta. destruct r as [[]|e];
    [|apply error_handler_keeps_ok, Hg2].
  apply wp_bind. eapply wp_mono;
    [|apply (wp_quiet E video_id); [repeat quiet_step|exact Hg2]].
  intros r w3 Hg3. cbv beta. destruct r as [[]|e];
    [|apply error_handler_keeps_ok, Hg3].
  apply wp_bind. eapply wp_mono;
    [|apply (wp_quiet E video_id); [apply fetch_transcript_quiet|exact Hg3]].
  intros r w4 Hg4. cbv beta. destruct r as [transcript_data|e];
    [|apply error_handler_keeps_ok, Hg4].
  apply wp_bind. eapply wp_mono;
    [|apply wp_result, (wp_quiet E video_id);
      [apply extract_insights_quiet|exact Hg4]].
  intros r w5 [Hg5 Hrun]. cbv beta.
  destruct (extract_insights_returns E (segments transcript_data) w4)
    as (recs & w5' & Hrun' & _ & Hlen & _).
  rewrite Hrun' in Hrun. injection Hrun as <- <-.
  eapply wp_mono; [|apply (publish_keeps_ok E video_id recs w5' Hlat); [|exact Hg5]].
  - intros r w6 [-> H6]. exact H6.
  - intros ->. discriminate.
Qed.

Lemma wp_quiet_ok {A : Type} (E : env) (p : prog A) (w : world) :
  all_quiet p -> all_stored_ok w ->
  wp E all_stored_ok p (fun _ w' => all_stored_ok w') w.
Proof.
  revert w. induction p as [a | e | X c k IH]; simpl; intros w Hq Hok.
  - split; assumption.
  - split; assumption.
  - destruct Hq as [Hc Hk]. split; [assumption|].
    apply IH; [apply Hk|]. intros x. apply quiet_exec_stored_ok; [assumption|apply Hok].
Qed.

(** The request handler and the whole submission keep it too, and an empty
    store has it. *)
Lemma submit_keeps_ok (E : env) (video_url : string) (w : world) :
  (forall n, latency E n <= slack) ->
  all_stored_ok w ->
  wp E all_stored_ok (submit E video_url) (fun _ w' => all_stored_ok w') w.
Proof.
  intros Hlat Hok. unfold submit. apply wp_bind.
  eapply wp_mono; [|apply wp_quiet_ok; [|exact Hok]].
  - intros r w1 H1. cbv beta. destruct r as [answer|e]; [|exact H1].
    apply wp_bind. eapply wp_mono; [|apply process_video_keeps_ok; assumption].
    intros r w2 H2. cbv beta. destruct r; [split|]; assumption.
  - unfold process_video_request. repeat quiet_step.
Qed.

Lemma fresh_world_ok : all_stored_ok fresh_world.
Proof. intros x es Hes. cbn in Hes. rewrite lookup_empty in Hes. discriminate. Qed.

(** A poller that reads [completed] on a store with [stored_ok] gets the
    insights. *)
Lemma poller_finds_insights (E : env) (video_id : string) (w : world) :
  (forall n, latency E n <= slack) ->
  stored_ok video_id (db w) ->
  redis_get ("status:" +:+ video_id) w = Some (VText "completed") ->
  exists l, fst (run E (get_video_insights video_id) w) = Ok l /\ l <> [].
Proof.
  intros Hlat Hok Hst. unfold get_video_insights.
  cbn [bind redis_GET call run exec fst snd]. rewrite Hst.
  cbn [value_truthy Str.truthy negb bind redis_GET call run exec fst snd].
  unfold redis_get, live in Hst.
  destruct (db w !! ("status:" +:+ video_id)) as [es|] eqn:Hes; [|discriminate].
  destruct (now w <? expires es) eqn:Hlive; [|discriminate].
  injection Hst as Hheld. apply Z.ltb_lt in Hlive.
  destruct (Hok es Hes Hheld) as (ei & l & Hei & Hl & Hne & Hexp).
  unfold redis_get, advance. cbn [now db]. rewrite Hei. cbn [live].
  assert (Hlive' : (now w + latency E (length (log w)) <? expires ei) = true).
  { apply Z.ltb_lt. pose proof (Hlat (length (log w))). lia. }
  rewrite Hlive', Hl. cbn [value_truthy negb run fst]. eauto.
Qed.

(** C1.  Start the background task on a store in which every [completed]
    status is backed by insights (an empty store is one), no command taking
    more than [slack] seconds.  In every world the task passes through, and
    at any later time while the store is as the task left it there, a
    poller that reads [status = completed] for an identifier gets that
    identifier's insights, a non-empty list: the insights are written (TTL
    86400) before the status (TTL 3600) and outlive it. *)
Theorem completed_status_has_insights (E : env) (video_id video_url : string)
    (w0 w w_obs : world) (i : nat) (id : string) :
  (forall n, latency E n <= slack) ->
  all_stored_ok w0 ->
  visits E (process_video E video_id video_url) w0 !! i = Some w ->
  db w_obs = db w ->
  redis_get ("status:" +:+ id) w_obs = Some (VText "completed") ->
  exists l, fst (run E (get_video_insights id) w_obs) = Ok l /\ l <> [].
Proof.
  intros Hlat Hok Hvisit Hdb Hst.
  destruct (wp_visits E _ _ _ _ (process_video_keeps_ok E video_id video_url w0
                                   Hlat Hok)) as [Hall _].
  rewrite Forall_lookup in Hall. specialize (Hall i w Hvisit id).
  apply poller_finds_insights; [assumption| |assumption].
  rewrite Hdb. exact Hall.
Qed.

Lemma completed_status_has_insights_witness :
  exists l,
    fst (run bare_env (get_video_insights "D9Ihs241zeg")
           (snd (run bare_env
                   (process_video bare_env "D9Ihs241zeg"
                      "https://youtu.be/D9Ihs241zeg") fresh_world)))
    = Ok l /\ l <> [].
Proof.
  apply (completed_status_has_insights bare_env "D9Ihs241zeg"
           "https://youtu.be/D9Ihs241zeg" fresh_world
           (snd (run bare_env
                   (process_video bare_env "D9Ihs241zeg"
                      "https://youtu.be/D9Ihs241zeg") fresh_world))
           _ 12%nat "D9Ihs241zeg").
  - intros n. vm_compute. discriminate.
  - intros x es Hes. vm_compute in Hes. discriminate.
  - vm_compute. reflexivity.
  - reflexivity.
  - vm_compute. reflexivity.
Defined.

(* ===================================================================== *)
(** * Strings put together *)
(* ===================================================================== *)

#[local] Arguments String.append : simpl nomatch.

Lemma all_app (p : ascii -> bool) (a b : string) :
  Str.all p (a +:+ b) = Str.all p a && Str.all p b.
Proof.
  induction a as [|c a IH]; simpl; [reflexivity|].
  rewrite IH. apply andb_assoc.
Qed.













Lemma rstrip_keep (cs a : string) :
  Str.all (fun c => negb (Str.mem c cs)) a = true -> Str.rstrip cs a = a.
Proof.
  induction a as [|d a IH]; simpl; [reflexivity|].
  intros [Hd Hs]%andb_true_iff. rewrite (IH Hs).
  apply negb_true_iff in Hd. rewrite Hd. destruct a; reflexivity.
Qed.



(* ===================================================================== *)
(** * urlparse on a web url *)
(* ===================================================================== *)








(* ===================================================================== *)
(** * The recognized shapes, one by one *)
(* ===================================================================== *)

Lemma cons_app (c : ascii) (a b : string) : String c a +:+ b = String c (a +:+ b).
Proof. reflexivity. Qed.











(** ** The watch shape: the query string *)




Lemma replace_keeps_absent (c d x : ascii) (s : string) :
  Ascii.eqb x d = false ->
  Str.mem x s = false -> Str.mem x (Str.replace_char c d s) = false.
Proof.
  intros Hd. induction s as [|a s IH]; simpl; [reflexivity|].
  intros [Ha Hs]%orb_false_iff. rewrite (IH Hs), orb_false_r.
  destruct (Ascii.eqb a c); assumption.
Qed.

Lemma partition_some (c : ascii) (s b r : string) :
  Str.partition c s = (b, Some r) -> s = b +:+ String c r.
Proof.
  revert b. induction s as [|a s IH]; simpl; intros b; [discriminate|].
  destruct (Ascii.eqb_spec a c) as [->|Hne].
  - intros [= <- <-]. reflexivity.
  - destruct (Str.partition c s) as [b' r'] eqn:Hp.
    intros [= <- ->]. simpl. rewrite (IH b' eq_refl). reflexivity.
Qed.












(** ** The embed and /v/ shapes: the pattern search *)


Lemma match_here_none (alts : list string) (s : string) :
  Forall (fun a => Str.starts_with a s = false) alts -> match_here alts s = None.
Proof.
  induction 1 as [|a alts Ha _ IH]; [reflexivity|].
  simpl. rewrite Ha. exact IH.
Qed.







Lemma dot_then_slash_seen (s : string) :
  dot_then_slash true s = false -> dot_then_slash false s = false.
Proof.
  induction s as [|c s IH]; [reflexivity|]. simpl.
  destruct (Ascii.eqb c "/"); [discriminate|].
  destruct (Ascii.eqb c "."); auto.
Qed.

Lemma dot_then_slash_tail (c : ascii) (s : string) :
  dot_then_slash false (String c s) = false -> dot_then_slash false s = false.
Proof.
  simpl. destruct (Ascii.eqb c "."); [apply dot_then_slash_seen|auto].
Qed.

Lemma dot_then_slash_prefix (a s : string) (b : bool) :
  Str.starts_with a s = true -> dot_then_slash b a = true ->
  dot_then_slash b s = true.
Proof.
  revert s b. induction a as [|x a IH]; intros [|y s] b; simpl; try discriminate.
  intros [Hxy Hrest]%andb_true_iff.
  assert (Hx : x = y) by (apply Ascii.eqb_eq; exact Hxy). subst y.
  destruct (b && Ascii.eqb x "/"); [reflexivity|]. apply IH, Hrest.
Qed.

Lemma re_search_none (alts : list string) (s : string) :
  Forall (fun a => dot_then_slash false a = true) alts ->
  dot_then_slash false s = false -> re_search alts s = None.
Proof.
  intros Halts. induction s as [|c s IH]; intros Hs.
  - cbn [re_search]. rewrite match_here_none; [reflexivity|].
    eapply Forall_impl; [exact Halts|]. intros a Ha.
    destruct (Str.starts_with a "") eqn:Hsw; [|reflexivity].
    rewrite (dot_then_slash_prefix a "" false Hsw Ha) in Hs. discriminate.
  - cbn [re_search]. rewrite match_here_none.
    + apply IH. eapply dot_then_slash_tail, Hs.
    + eapply Forall_impl; [exact Halts|]. intros a Ha.
      destruct (Str.starts_with a (String c s)) eqn:Hsw; [|reflexivity].
      rewrite (dot_then_slash_prefix a _ false Hsw Ha) in Hs. discriminate.
Qed.

Lemma dot_then_slash_no_slash (b : bool) (s : string) :
  Str.mem "/" s = false -> dot_then_slash b s = false.
Proof.
  revert b. induction s as [|c s IH]; intros b; [reflexivity|].
  cbn [Str.mem dot_then_slash].
  intros [Hc Hs]%orb_false_iff. rewrite Ascii.eqb_sym in Hc.
  rewrite Hc, andb_false_r. apply IH, Hs.
Qed.






(* ===================================================================== *)
(** * extract_video_id on the recognized shapes *)
(* ===================================================================== *)


(** What else the shapes leave out: a second path segment on a short link,
    a pattern of higher priority inside the query of an embed url, and an
    escaped name that decodes to [v] before the [v] field. *)
Example short_link_two_segments :
  extract_video_id bare_env "https://youtu.be/abc123/extra" = Ok "abc123/extra".
Proof. reflexivity. Qed.

Example embed_query_with_short_link :
  extract_video_id bare_env
    "https://www.youtube.com/embed/abc123?ref=youtu.be/zzz999" = Ok "zzz999".
Proof. reflexivity. Qed.

Example watch_escaped_name_first :
  extract_video_id bare_env "https://www.youtube.com/watch?%76=zzz999&v=abc123"
  = Ok "zzz999".
Proof. reflexivity. Qed.

(** An escaped name that does not decode to [v] is an other field. *)
Example watch_escaped_other_name :
  recognized "https://www.youtube.com/watch?a%20b=1&v=abc123" "abc123".
Proof.
  refine (shape_watch "https" "www.youtube.com" ["a%20b=1"] "abc123" "" _ _ _ _ _).
  - right. reflexivity.
  - right. left. reflexivity.
  - constructor; [|constructor].
    split; [reflexivity|]. split; [reflexivity|]. split; [reflexivity|].
    intros value H. vm_compute in H. discriminate H.
  - split; [discriminate|reflexivity].
  - left. reflexivity.
Qed.



(* ===================================================================== *)
(** * More on the transcript chain *)
(* ===================================================================== *)

Lemma only_providers_refl (w : world) : only_providers_since w w.
Proof. split; [reflexivity|]. exists []. split; [reflexivity|constructor]. Qed.

Lemma only_providers_trans (w0 w1 w2 : world) :
  only_providers_since w0 w1 -> only_providers_since w1 w2 ->
  only_providers_since w0 w2.
Proof.
  intros (Hd1 & evs1 & Hl1 & He1) (Hd2 & evs2 & Hl2 & He2).
  split; [congruence|]. exists (evs2 ++ evs1).
  split; [rewrite Hl2, Hl1; apply app_assoc|]. apply Forall_app. auto.
Qed.

Lemma only_providers_step (E : env) (w : world) (ev : event) :
  provider_event ev = true -> only_providers_since w (advance E ev (db w) w).
Proof.
  intros H. split; [reflexivity|]. exists [ev]. split; [reflexivity|].
  repeat constructor. exact H.
Qed.

Lemma get_video_details_providers (E : env) (video_id : string) (w : world) :
  exists s w', run E (get_video_details E video_id) w = (Ok s, w')
               /\ only_providers_since w w'.
Proof.
  unfold get_video_details. destruct (negb _).
  - cbn [run]. eexists _, _. split; [reflexivity|apply only_providers_refl].
  - rewrite run_catch, run_bind. cbn [call run exec fst snd].
    destruct (video_details_api E _ video_id); cbn [run];
      eexists _, _; (split; [reflexivity|]); apply only_providers_step;
      reflexivity.
Qed.

Lemma get_mock_transcript_providers (E : env) (video_id : string) (w : world) :
  exists s w', run E (get_mock_transcript E video_id) w = (Ok s, w')
               /\ s <> EmptyString /\ only_providers_since w w'.
Proof.
  unfold get_mock_transcript. rewrite run_bind.
  destruct (get_video_details_providers E video_id w) as (d & w' & -> & Hp).
  destruct (_ && _); cbn [run]; eexists _, _; (split; [reflexivity|]);
    (split; [discriminate|assumption]).
Qed.

Lemma mock_result_world (E : env) (video_id : string) (redis_client : bool)
    (w : world) :
  exists s w1,
    run E (mock_result E video_id ("transcript:" +:+ video_id) redis_client) w
    = (Ok {| source := "mock_data"; segments := single_segment s |},
       cached_world E video_id redis_client
         {| source := "mock_data"; segments := single_segment s |} w1)
    /\ s <> EmptyString /\ only_providers_since w w1.
Proof.
  unfold mock_result. rewrite run_bind.
  destruct (get_mock_transcript_providers E video_id w) as (s & w1 & -> & Hs & Hp).
  exists s, w1. split; [|auto]. rewrite run_bind.
  destruct redis_client; reflexivity.
Qed.

(** The chain never raises: it hands back the provider's segments or the
    one-segment mock, cached when there is a store. *)
Lemma transcript_chain_run (E : env) (video_id : string) (redis_client : bool)
    (w : world) :
  exists r w1,
    run E (transcript_chain E video_id redis_client) w
    = (Ok r, cached_world E video_id redis_client r w1)
    /\ segments r <> []
    /\ (source r = "youtube_api" \/ source r = "mock_data")
    /\ only_providers_since w w1.
Proof.
  unfold transcript_chain. rewrite !run_catch, run_bind.
  unfold fetch_transcript_from_api. rewrite run_catch, run_bind.
  cbn [call run exec fst snd].
  pose proof (only_providers_step E w (EvTranscriptApi video_id) eq_refl) as Hstep.
  set (w0 := advance E (EvTranscriptApi video_id) (db w) w) in *.
  destruct (transcript_api E (length (log w)) video_id) as [[|x l]|msg|msg];
    cbn [run].
  2:{ rewrite run_bind. exists {| source := "youtube_api"; segments := x :: l |}, w0.
      split; [destruct redis_client; reflexivity|].
      split; [discriminate|]. split; [left; reflexivity|exact Hstep]. }
  all: destruct (mock_result_world E video_id redis_client w0)
         as (s & w1 & -> & Hs & Hp);
       eexists _, w1; (split; [reflexivity|]); (split; [discriminate|]);
       (split; [right; reflexivity|]);
       eapply only_providers_trans; eassumption.
Qed.

Lemma get_transcript_miss (E : env) (video_id : string) (w : world) :
  value_truthy (live (clock_after E w 3)
                     (db w !! ("transcript:" +:+ video_id))) = false ->
  run E (get_transcript E video_id true) w
  = run E (transcript_chain E video_id true) (after_lookup E video_id w).
Proof.
  intros Hmiss. unfold get_transcript, after_lookup.
  cbn [when bind redis_DELETE redis_SETEX redis_GET call run exec fst snd].
  unfold redis_get, advance, clock_after in *.
  cbn [now db log length time_after] in *.
  rewrite reset_keeps_transcript, Hmiss. reflexivity.
Qed.

Lemma mock_result_text (E : env) (video_id : string) (redis_client : bool)
    (w : world) :
  exists s w1,
    run E (get_mock_transcript E video_id) w = (Ok s, w1)
    /\ run E (mock_result E video_id ("transcript:" +:+ video_id) redis_client) w
       = (Ok {| source := "mock_data"; segments := single_segment s |},
          cached_world E video_id redis_client
            {| source := "mock_data"; segments := single_segment s |} w1).
Proof.
  unfold mock_result. rewrite run_bind.
  destruct (get_mock_transcript_providers E video_id w) as (s & w1 & -> & _).
  exists s, w1. split; [reflexivity|]. rewrite run_bind.
  destruct redis_client; reflexivity.
Qed.

(** What the chain hands back: the provider's list when it is not empty,
    the mock transcript as one segment otherwise. *)
Lemma transcript_chain_result (E : env) (video_id : string) (redis_client : bool)
    (w : world) :
  match transcript_api E (length (log w)) video_id with
  | ApiSegments ((_ :: _) as transcript_list) =>
      fst (run E (transcript_chain E video_id redis_client) w)
      = Ok {| source := "youtube_api"; segments := transcript_list |}
  | _ =>
      exists mock_transcript,
        fst (run E (get_mock_transcript E video_id)
               (snd (exec E (CallTranscriptApi video_id) w)))
        = Ok mock_transcript
        /\ fst (run E (transcript_chain E video_id redis_client) w)
           = Ok {| source := "mock_data";
                   segments := [ {| text := mock_transcript;
                                    start := 0%Q; duration := 0%Q |} ] |}
  end.
Proof.
  unfold transcript_chain. rewrite !run_catch, run_bind.
  unfold fetch_transcript_from_api. rewrite run_catch, run_bind.
  cbn [call run exec fst snd].
  set (w0 := advance E (EvTranscriptApi video_id) (db w) w) in *.
  destruct (transcript_api E (length (log w)) video_id) as [[|x l]|msg|msg];
    cbn [run].
  2:{ rewrite run_bind. destruct redis_client; reflexivity. }
  all: destruct (mock_result_text E video_id redis_client w0)
         as (s & w1 & Hs & ->);
       exists s; rewrite Hs; split; reflexivity.
Qed.

(** X1.  On a cache miss [get_transcript] never raises and never returns an
    empty transcript.  When the provider answers a list that is not empty,
    the result is that list with source [youtube_api]; in every other case
    (an empty list, no captions, any failure) it is one segment with start
    and duration zero whose text is what [get_mock_transcript] returns,
    with source [mock_data].  With a store, the last command caches that
    result for 86400 seconds. *)
Theorem get_transcript_miss_returns (E : env) (video_id : string)
    (redis_client : bool) (w : world) :
  (redis_client = true ->
   value_truthy (live (clock_after E w 3)
                      (db w !! ("transcript:" +:+ video_id))) = false) ->
  let w0 := if redis_client then after_lookup E video_id w else w in
  exists r w',
    run E (get_transcript E video_id redis_client) w = (Ok r, w')
    /\ segments r <> []
    /\ (source r = "youtube_api" \/ source r = "mock_data")
    /\ match transcript_api E (length (log w0)) video_id with
       | ApiSegments ((_ :: _) as transcript_list) =>
           r = {| source := "youtube_api"; segments := transcript_list |}
       | _ =>
           exists mock_transcript,
             fst (run E (get_mock_transcript E video_id)
                    (snd (exec E (CallTranscriptApi video_id) w0)))
             = Ok mock_transcript
             /\ r = {| source := "mock_data";
                       segments := [ {| text := mock_transcript;
                                        start := 0%Q; duration := 0%Q |} ] |}
       end
    /\ (redis_client = true ->
        just_cached E w' ("transcript:" +:+ video_id) 86400 (VTranscript r)).
Proof.
  intros Hmiss. cbv zeta. destruct redis_client.
  - rewrite get_transcript_miss by auto.
    pose proof (transcript_chain_result E video_id true
                  (after_lookup E video_id w)) as Hres.
    destruct (transcript_chain_run E video_id true (after_lookup E video_id w))
      as (r & w1 & Hrun & Hseg & Hsrc & _).
    rewrite Hrun in *. cbn [fst] in Hres.
    exists r, (cached_world E video_id true r w1).
    split; [reflexivity|]. split; [assumption|]. split; [assumption|].
    split.
    + destruct (transcript_api E _ video_id) as [[|x l]|msg|msg].
      2:{ injection Hres as ->. reflexivity. }
      all: destruct Hres as (s & Hs & [= ->]); exists s; auto.
    + intros _. exists (log w1). split; [reflexivity|].
      cbn [cached_world advance db now]. rewrite lookup_insert_eq.
      do 2 f_equal. lia.
  - change (run E (get_transcript E video_id false) w)
      with (run E (transcript_chain E video_id false) w).
    pose proof (transcript_chain_result E video_id false w) as Hres.
    destruct (transcript_chain_run E video_id false w)
      as (r & w1 & Hrun & Hseg & Hsrc & _).
    rewrite Hrun in *. cbn [fst] in Hres.
    exists r, w1. split; [reflexivity|]. split; [assumption|].
    split; [assumption|]. split; [|discriminate].
    destruct (transcript_api E _ video_id) as [[|x l]|msg|msg].
    2:{ injection Hres as ->. reflexivity. }
    all: destruct Hres as (s & Hs & [= ->]); exists s; auto.
Qed.

Lemma get_transcript_miss_returns_witness :
  exists r w',
    run flaky_env (get_transcript flaky_env "D9Ihs241zeg" true) fresh_world
    = (Ok r, w')
    /\ segments r <> []
    /\ r = {| source := "youtube_api";
              segments := [ {| text := "good"; start := 0%Q; duration := 1%Q |} ] |}
    /\ just_cached flaky_env w' ("transcript:" +:+ "D9Ihs241zeg") 86400
         (VTranscript r).
Proof.
  destruct (get_transcript_miss_returns flaky_env "D9Ihs241zeg" true fresh_world)
    as (r & w' & Hrun & Hseg & _ & Hres & Hcached).
  - intros _. reflexivity.
  - exists r, w'. split; [exact Hrun|]. split; [exact Hseg|].
    split; [exact Hres|]. apply Hcached. reflexivity.
Defined.

(** X2.  Called without a store, [get_transcript] neither reads nor writes it:
    every command it runs goes to an outside service. *)
Theorem get_transcript_without_store (E : env) (video_id : string) (w : world) :
  only_providers_since w (snd (run E (get_transcript E video_id false) w)).
Proof.
  change (run E (get_transcript E video_id false) w)
    with (run E (transcript_chain E video_id false) w).
  destruct (transcript_chain_run E video_id false w) as (r & w1 & -> & _ & _ & Hp).
  exact Hp.
Qed.

Lemma after_lookup_status (E : env) (video_id : string) (w : world) :
  db (after_lookup E video_id w) !! ("status:" +:+ video_id)
  = Some {| held := VText "pending"; expires := clock_after E w 2 + 3600 |}
  /\ db (after_lookup E video_id w) !! ("error:" +:+ video_id) = None.
Proof.
  unfold after_lookup.
  cbn [bind redis_DELETE redis_SETEX redis_GET call run exec fst snd].
  unfold advance, clock_after. cbn [now db log length time_after].
  split.
  - apply lookup_insert_eq.
  - rewrite lookup_insert_ne by discriminate.
    rewrite lookup_delete_ne by discriminate. apply lookup_delete_eq.
Qed.

(** X3.  Every call of [get_transcript] with a store, cache hit or miss and
    whatever it returns, leaves [status:{video_id}] set to [pending], written
    by its third command with a TTL of 3600 seconds, and no
    [error:{video_id}]. *)
Theorem get_transcript_resets_status (E : env) (video_id : string) (w : world) :
  let w' := snd (run E (get_transcript E video_id true) w) in
  db w' !! ("status:" +:+ video_id)
  = Some {| held := VText "pending"; expires := clock_after E w 2 + 3600 |}
  /\ db w' !! ("error:" +:+ video_id) = None.
Proof.
  cbv zeta.
  destruct (after_lookup_status E video_id w) as [Hst Her].
  destruct (value_truthy (live (clock_after E w 3)
                               (db w !! ("transcript:" +:+ video_id)))) eqn:Hc.
  - assert (Hrun : snd (run E (get_transcript E video_id true) w)
                   = after_lookup E video_id w).
    { unfold get_transcript, after_lookup.
      cbn [when bind redis_DELETE redis_SETEX redis_GET call run exec fst snd].
      unfold redis_get, advance, clock_after in *.
      cbn [now db log length time_after] in *.
      rewrite reset_keeps_transcript, Hc.
      destruct (live _ _) as [[s|r|l]|]; reflexivity. }
    rewrite Hrun. auto.
  - rewrite get_transcript_miss by assumption.
    destruct (transcript_chain_run E video_id true (after_lookup E video_id w))
      as (r & w1 & -> & _ & _ & Hdb & _).
    cbn [snd cached_world advance db].
    rewrite !lookup_insert_ne by discriminate. rewrite Hdb. auto.
Qed.

(** X4.  A transcript cached on a miss is what the next call returns: after a
    first call on a cold cache, a second call with the same identifier
    returns the same result and asks no provider, as long as no command
    takes six hours. *)
Theorem cached_transcript_round_trip (E : env) (video_id : string) (w : world) :
  (forall n, latency E n < 21600) ->
  value_truthy (live (clock_after E w 3)
                     (db w !! ("transcript:" +:+ video_id))) = false ->
  exists r w1,
    run E (get_transcript E video_id true) w = (Ok r, w1)
    /\ run E (get_transcript E video_id true) w1
       = (Ok r, after_lookup E video_id w1).
Proof.
  intros Hlat Hmiss. rewrite get_transcript_miss by assumption.
  destruct (transcript_chain_run E video_id true (after_lookup E video_id w))
    as (r & w1 & -> & _ & _ & _).
  exists r, (cached_world E video_id true r w1). split; [reflexivity|].
  eapply warm_cache_call.
  - cbn [cached_world advance db]. apply lookup_insert_eq.
  - reflexivity.
  - cbn [expires]. unfold clock_after, cached_world, advance.
    cbn [now log length time_after].
    pose proof (Hlat (length (log w1))).
    pose proof (Hlat (S (length (log w1)))).
    pose proof (Hlat (S (S (length (log w1))))).
    pose proof (Hlat (S (S (S (length (log w1)))))).
    lia.
Qed.

Lemma cached_transcript_round_trip_witness :
  exists r w1,
    run flaky_env (get_transcript flaky_env "D9Ihs241zeg" true) fresh_world
    = (Ok r, w1)
    /\ run flaky_env (get_transcript flaky_env "D9Ihs241zeg" true) w1
       = (Ok r, after_lookup flaky_env "D9Ihs241zeg" w1).
Proof.
  apply cached_transcript_round_trip.
  - intros n. reflexivity.
  - reflexivity.
Defined.

(* ===================================================================== *)
(** * fallback_whisper with its prerequisites *)
(* ===================================================================== *)



(* ===================================================================== *)
(** * More on the insight batch *)
(* ===================================================================== *)

Lemma sample_with_spec (rnd : nat -> nat) (k : nat) (population : list string) :
  NoDup population ->
  NoDup (sample_with rnd population k)
  /\ forall x, x ∈ sample_with rnd population k -> x ∈ population.
Proof.
  revert population. induction k as [|k IH]; intros population Hnd.
  - split; [constructor|]. intros x Hx. inversion Hx.
  - destruct population as [|y ys]; [split; [constructor|intros x Hx; inversion Hx]|].
    cbn [sample_with].
    set (i := (rnd k mod length (y :: ys))%nat).
    assert (Hi : (i < length (y :: ys))%nat).
    { apply Nat.mod_upper_bound. simpl. lia. }
    destruct (lookup_lt_is_Some_2 (y :: ys) i Hi) as [z Hz].
    rewrite (nth_lookup_Some _ _ _ _ Hz).
    pose proof (take_drop_middle _ _ _ Hz) as Hmid.
    rewrite delete_take_drop.
    rewrite <- Hmid in Hnd.
    apply NoDup_app in Hnd as (Hnd1 & Hdisj & Hnd2).
    apply NoDup_cons in Hnd2 as [Hz2 Hnd2].
    assert (Hnd' : NoDup (take i (y :: ys) ++ drop (S i) (y :: ys))).
    { apply NoDup_app. split; [assumption|]. split; [|assumption].
      intros x Hx Hx'. apply (Hdisj x Hx). right. exact Hx'. }
    destruct (IH _ Hnd') as [IH1 IH2].
    assert (Hsub : forall x, x ∈ take i (y :: ys) ++ drop (S i) (y :: ys) ->
                             x ∈ y :: ys).
    { intros x Hx. rewrite <- Hmid. apply elem_of_app in Hx as [Hx|Hx].
      - apply elem_of_app. left. exact Hx.
      - apply elem_of_app. right. right. exact Hx. }
    split.
    + constructor; [|assumption]. intros Hin. apply IH2 in Hin.
      apply elem_of_app in Hin as [Hin|Hin].
      * apply (Hdisj z Hin). left.
      * contradiction.
    + intros x Hx. apply elem_of_cons in Hx as [->|Hx].
      * eapply list_elem_of_lookup_2, Hz.
      * apply Hsub, IH2, Hx.
Qed.

Lemma topic_names_nodup : NoDup (map fst topic_insights).
Proof. refine (bool_decide_unpack _ _). vm_compute. exact I. Qed.

(** X6.  The six records name six different topics, each a key of the
    predefined table, in the order they were drawn. *)
Theorem extract_insights_distinct_topics (E : env) (segs : list Segment)
    (w : world) :
  exists recs,
    fst (run E (extract_insights E segs) w) = Ok recs
    /\ NoDup (map name recs)
    /\ Forall (fun r => name r ∈ map fst topic_insights) recs.
Proof.
  destruct (extract_insights_returns E segs w) as (recs & w' & Hrun & Hn & _ & _).
  exists recs. rewrite Hrun. split; [reflexivity|].
  destruct (sample_with_spec (random_index E (length (log w)))
              (Nat.min 6 (length topic_insights)) (map fst topic_insights)
              topic_names_nodup) as [Hnd Hsub].
  fold (selected_topics E w) in Hnd, Hsub. rewrite <- Hn in Hnd, Hsub.
  split; [assumption|]. apply Forall_forall. intros r Hr.
  apply Hsub. apply list_elem_of_fmap. eauto.
Qed.

Lemma dict_get_three (key : string) (v : list string) :
  dict_get key topic_insights = Some v -> length v = 3%nat.
Proof.
  intros H. apply dict_get_in in H as (k & Hin).
  unfold topic_insights in Hin. simpl in Hin.
  repeat (destruct Hin as [[= <- <-]|Hin]; [reflexivity|]).
  destruct Hin.
Qed.

Lemma dict_get_key (key : string) (d : list (string * list string)) :
  key ∈ map fst d -> exists v, dict_get key d = Some v.
Proof.
  induction d as [|[k u] d IH]; simpl; intros Hin; [inversion Hin|].
  destruct (String.eqb_spec k key) as [->|Hne]; [eauto|].
  apply elem_of_cons in Hin as [Heq|Hin]; [congruence|auto].
Qed.

Lemma for_each_topic_offline (E : env) (text : string) (topics : list string)
    (w : world) :
  key_set (OPENAI_API_KEY E) && OPENAI_AVAILABLE E = false ->
  run E (for_each_topic E text topics) w
  = (Ok (map (fun topic =>
                {| name := topic;
                   sentiment := analyze_sentiment_simple text topic;
                   insights := predefined_insights topic |}) topics), w).
Proof.
  intros Hcfg. induction topics as [|topic rest IH]; [reflexivity|].
  cbn [for_each_topic]. rewrite run_bind. unfold topic_record.
  rewrite run_catch, run_bind, Hcfg. cbn [run]. rewrite run_bind, IH.
  reflexivity.
Qed.

(** X7.  Without the language model configured, the batch makes no call to it:
    its one command is the random draw, and every record carries the three
    predefined insights of its topic. *)
Theorem extract_insights_offline (E : env) (segs : list Segment) (w : world) :
  key_set (OPENAI_API_KEY E) && OPENAI_AVAILABLE E = false ->
  exists recs,
    run E (extract_insights E segs) w = (Ok recs, advance E EvSample (db w) w)
    /\ Forall (fun r => dict_get (name r) topic_insights = Some (insights r)
                        /\ length (insights r) = 3%nat) recs.
Proof.
  intros Hcfg. unfold extract_insights. rewrite run_bind.
  cbn [call run exec fst snd]. rewrite for_each_topic_offline by assumption.
  eexists. split; [reflexivity|].
  apply Forall_forall. intros r Hr.
  apply list_elem_of_fmap in Hr as (topic & -> & Ht). cbn [name insights].
  destruct (sample_with_spec (random_index E (length (log w)))
              (Nat.min 6 (length topic_insights)) (map fst topic_insights)
              topic_names_nodup) as [_ Hsub].
  destruct (dict_get_key topic topic_insights (Hsub topic Ht)) as (v & Hv).
  unfold predefined_insights. rewrite Hv. cbn [default].
  split; [reflexivity|]. eapply dict_get_three, Hv.
Qed.

Lemma extract_insights_offline_witness :
  exists recs,
    run bare_env (extract_insights bare_env []) fresh_world
    = (Ok recs, advance bare_env EvSample (db fresh_world) fresh_world)
    /\ Forall (fun r => dict_get (name r) topic_insights = Some (insights r)
                        /\ length (insights r) = 3%nat) recs.
Proof. apply extract_insights_offline. reflexivity. Defined.

Lemma lower_char_idem (c : ascii) : Str.lower_char (Str.lower_char c) = Str.lower_char c.
Proof. destruct c as [[] [] [] [] [] [] [] []]; reflexivity. Qed.

Lemma lower_idem (s : string) : Str.lower (Str.lower s) = Str.lower s.
Proof.
  induction s as [|c s IH]; [reflexivity|].
  cbn [Str.lower]. rewrite lower_char_idem, IH. reflexivity.
Qed.

(** X8.  The sentiment does not see letter case: texts that agree once lowered
    get the same label, and lowering a text does not change its label. *)
Theorem sentiment_case_insensitive (text1 text2 topic1 topic2 : string) :
  Str.lower text1 = Str.lower text2 ->
  analyze_sentiment_simple text1 topic1 = analyze_sentiment_simple text2 topic2
  /\ analyze_sentiment_simple (Str.lower text1) topic1
     = analyze_sentiment_simple text1 topic1.
Proof.
  intros H. unfold analyze_sentiment_simple. rewrite lower_idem, H. auto.
Qed.

Lemma sentiment_case_insensitive_witness :
  analyze_sentiment_simple "A GREAT Success" "Climate Change"
  = analyze_sentiment_simple "a great success" "Water Conservation"
  /\ analyze_sentiment_simple (Str.lower "A GREAT Success") "Climate Change"
     = analyze_sentiment_simple "A GREAT Success" "Climate Change".
Proof. apply sentiment_case_insensitive. reflexivity. Defined.

Lemma count_from_absent (w s : string) :
  Str.contains w s = false -> Str.count_from O w s = O.
Proof.
  induction s as [|c s IH]; [reflexivity|].
  cbn [Str.contains Str.count_from].
  intros [H1 H2]%orb_false_iff. rewrite H1. auto.
Qed.

Lemma sum_counts_absent (words : list string) (s : string) :
  Forall (fun kw => Str.contains kw s = false) words -> sum_counts words s = 0.
Proof.
  induction 1 as [|kw words Hkw _ IH]; [reflexivity|].
  cbn [sum_counts foldr]. fold (sum_counts words s). rewrite IH.
  destruct kw as [|c kw]; [destruct s; discriminate Hkw|].
  cbn [Str.count]. rewrite count_from_absent by assumption. reflexivity.
Qed.

(** X9.  A transcript of ASCII text in which, once lowered, none of the
    sentiment keywords occurs (an empty one, for instance) gives six
    records, all [neutral].  On ASCII text [Str.lower] is [str.lower()]. *)
Theorem no_keywords_all_neutral (E : env) (segs : list Segment) (w : world) :
  Str.isascii (full_text segs) = true ->
  Forall (fun kw => Str.contains kw (Str.lower (full_text segs)) = false)
         (positive_words ++ negative_words) ->
  exists recs,
    fst (run E (extract_insights E segs) w) = Ok recs
    /\ length recs = 6%nat
    /\ Forall (fun r => sentiment r = "neutral") recs.
Proof.
  intros _ Hkw. apply Forall_app in Hkw as [Hpos Hneg].
  destruct (extract_insights_returns E segs w) as (recs & w' & Hrun & _ & Hlen & Hall).
  exists recs. rewrite Hrun. split; [reflexivity|]. split; [assumption|].
  eapply Forall_impl; [exact Hall|]. intros r (Hs & _). rewrite Hs.
  unfold analyze_sentiment_simple.
  rewrite (sum_counts_absent _ _ Hpos), (sum_counts_absent _ _ Hneg). reflexivity.
Qed.

Lemma no_keywords_all_neutral_witness :
  exists recs,
    fst (run bare_env (extract_insights bare_env []) fresh_world) = Ok recs
    /\ length recs = 6%nat
    /\ Forall (fun r => sentiment r = "neutral") recs.
Proof.
  apply no_keywords_all_neutral; [reflexivity|].
  apply Forall_forall. intros kw Hkw.
  change (Str.lower (full_text [])) with EmptyString.
  destruct kw as [|c kw]; [|reflexivity].
  exfalso. revert Hkw.
  refine (bool_decide_unpack (EmptyString ∉ positive_words ++ negative_words) _).
  vm_compute. exact I.
Defined.

(* ===================================================================== *)
(** * Programs that keep to their keys *)
(* ===================================================================== *)

Lemma wp_true {A : Type} (E : env) (p : prog A) (w : world) :
  wp E (fun _ => True) p (fun _ _ => True) w.
Proof.
  revert w. induction p as [a | e | X c k IH]; simpl; intros w; auto.
Qed.

Lemma all_readonly_bind {A B : Type} (p : prog A) (f : A -> prog B) :
  all_readonly p -> (forall a, all_readonly (f a)) -> all_readonly (bind p f).
Proof.
  intros Hp Hf. induction p as [a | e | X c k IH]; simpl in *; auto.
  destruct Hp as [Hc Hk]. split; auto.
Qed.

Lemma all_readonly_catch {A : Type} (p : prog A) (h : exn -> prog A) :
  all_readonly p -> (forall e, all_readonly (h e)) -> all_readonly (catch p h).
Proof.
  intros Hp Hh. induction p as [a | e | X c k IH]; simpl in *; auto.
  destruct Hp as [Hc Hk]. split; auto.
Qed.

Lemma all_readonly_db {A : Type} (E : env) (p : prog A) (w : world) :
  all_readonly p -> db (snd (run E p w)) = db w.
Proof.
  revert w. induction p as [a | e | X c k IH]; simpl; intros w Hp;
    try reflexivity.
  destruct Hp as [Hc Hk].
  destruct (exec E c w) as [x w1] eqn:Hx. rewrite (IH x w1 (Hk x)).
  destruct c; try contradiction; cbn in Hx; injection Hx as _ <-; reflexivity.
Qed.

Ltac readonly_step :=
  lazymatch goal with
  | |- all_readonly (bind _ _) => apply all_readonly_bind; [|intros]
  | |- all_readonly (catch _ _) => apply all_readonly_catch; [|intros]
  | |- all_readonly (call _) => split; [exact I|intros; exact I]
  | |- all_readonly (Ret _) => exact I
  | |- all_readonly (Throw _) => exact I
  | |- all_readonly (match ?x with _ => _ end) => destruct x
  end.

Lemma extract_insights_readonly (E : env) (segs : list Segment) :
  all_readonly (extract_insights E segs).
Proof.
  unfold extract_insights. readonly_step; [readonly_step|].
  match goal with |- all_readonly (for_each_topic _ _ ?l) => induction l as [|t l IH] end.
  - exact I.
  - cbn [for_each_topic]. readonly_step.
    + unfold topic_record, generate_insights_with_gpt. repeat readonly_step.
    + readonly_step; [exact IH|]. readonly_step.
Qed.

Lemma all_within_bind {A B : Type} (video_id : string) (p : prog A)
    (f : A -> prog B) :
  all_within video_id p -> (forall a, all_within video_id (f a)) ->
  all_within video_id (bind p f).
Proof.
  intros Hp Hf. induction p as [a | e | X c k IH]; simpl in *; auto.
  destruct Hp as [Hc Hk]. split; auto.
Qed.

Lemma all_within_catch {A : Type} (video_id : string) (p : prog A)
    (h : exn -> prog A) :
  all_within video_id p -> (forall e, all_within video_id (h e)) ->
  all_within video_id (catch p h).
Proof.
  intros Hp Hh. induction p as [a | e | X c k IH]; simpl in *; auto.
  destruct Hp as [Hc Hk]. split; auto.
Qed.

Lemma all_readonly_within {A : Type} (video_id : string) (p : prog A) :
  all_readonly p -> all_within video_id p.
Proof.
  induction p as [a | e | X c k IH]; simpl; auto.
  intros [Hc Hk]. split; [|auto]. destruct c; try exact I; contradiction.
Qed.

Lemma all_within_db {A : Type} (E : env) (video_id key : string) (p : prog A)
    (w : world) :
  all_within video_id p -> ~ key_of video_id key ->
  db (snd (run E p w)) !! key = db w !! key.
Proof.
  intros Hp Hkey. revert w Hp.
  induction p as [a | e | X c k IH]; simpl; intros w Hp; try reflexivity.
  destruct Hp as [Hc Hk].
  destruct (exec E c w) as [x w1] eqn:Hx. rewrite (IH x w1 (Hk x)).
  destruct c; cbn in Hx; injection Hx as _ <-; cbn [advance db];
    try reflexivity.
  - apply lookup_insert_ne. intros ->. contradiction.
  - apply lookup_delete_ne. intros ->. contradiction.
Qed.

Ltac within_command :=
  cbn [within]; unfold key_of;
  first [ exact I
        | left; reflexivity
        | right; left; reflexivity
        | right; right; left; reflexivity
        | right; right; right; reflexivity ].

Ltac within_step :=
  lazymatch goal with
  | |- all_within ?v (bind (Ret ?a) ?f) =>
      change (all_within v (f a)); cbv beta
  | |- all_within _ (bind _ _) => apply all_within_bind; [|intros]
  | |- all_within _ (catch _ _) => apply all_within_catch; [|intros]
  | |- all_within _ (call _) => split; [within_command|intros; exact I]
  | |- all_within _ (redis_GET _) => split; [within_command|intros; exact I]
  | |- all_within _ (redis_SETEX _ _ _) => split; [within_command|intros; exact I]
  | |- all_within _ (redis_DELETE _) => split; [within_command|intros; exact I]
  | |- all_within _ (Ret _) => exact I
  | |- all_within _ (Throw _) => exact I
  | |- all_within _ (extract_insights _ _) =>
      apply all_readonly_within, extract_insights_readonly
  | |- all_within _ (when ?b _) => destruct b; cbn [when]
  | |- all_within _ (match ?x with _ => _ end) => destruct x
  end.

Lemma get_transcript_within (E : env) (video_id : string) (redis_client : bool) :
  all_within video_id (get_transcript E video_id redis_client).
Proof.
  unfold get_transcript, mock_result, get_mock_transcript, get_video_details,
    fetch_transcript_from_api, json_loads_transcript.
  repeat within_step.
Qed.

(** X10.  A submission whose url yields [video_id] reads and writes no key but
    the four of [video_id]: every other key of the store is left as it
    was, by the request handler and by the task. *)
Theorem submit_touches_own_keys (E : env) (video_url video_id key : string)
    (w : world) :
  extract_video_id E video_url = Ok video_id ->
  ~ key_of video_id key ->
  db (snd (run E (submit E video_url) w)) !! key = db w !! key.
Proof.
  intros Hid Hkey. unfold submit. rewrite run_bind.
  assert (Hreq : all_within video_id (process_video_request E video_url)).
  { unfold process_video_request. rewrite Hid. cbn [lift]. repeat within_step. }
  assert (Hans : fst (run E (process_video_request E video_url) w)
                 = Ok (video_id, "pending")).
  { unfold process_video_request. rewrite Hid. reflexivity. }
  pose proof (all_within_db E video_id key _ w Hreq Hkey) as Hdb.
  destruct (run E (process_video_request E video_url) w) as [r w1].
  cbn [fst snd] in *. subst r. rewrite <- Hdb.
  apply (all_within_db E video_id); [|assumption].
  unfold process_video, fetch_transcript. rewrite Hid. cbn [lift fst].
  repeat first [ apply get_transcript_within | within_step ].
Qed.

Lemma submit_touches_own_keys_witness :
  db (snd (run bare_env (submit bare_env "https://youtu.be/D9Ihs241zeg")
             warm_world)) !! "transcript:abc123"
  = db warm_world !! "transcript:abc123".
Proof.
  apply (submit_touches_own_keys bare_env _ "D9Ihs241zeg").
  - reflexivity.
  - intros [H|[H|[H|H]]]; discriminate H.
Defined.

(* ===================================================================== *)
(** * The request flows *)
(* ===================================================================== *)

Lemma get_transcript_returns (E : env) (video_id : string) (w : world) :
  holds_transcript (db w !! ("transcript:" +:+ video_id)) ->
  exists r w', run E (get_transcript E video_id true) w = (Ok r, w').
Proof.
  intros Hh.
  destruct (value_truthy (live (clock_after E w 3)
                            (db w !! ("transcript:" +:+ video_id)))) eqn:Hhit.
  - destruct (db w !! ("transcript:" +:+ video_id)) as [e|] eqn:He;
      [|discriminate Hhit].
    cbn [live] in Hhit. cbn [holds_transcript] in Hh.
    destruct (clock_after E w 3 <? expires e) eqn:Hlt; [|discriminate Hhit].
    destruct (held e) as [s|r|l] eqn:Hheld; try contradiction.
    exists r, (after_lookup E video_id w).
    apply (warm_cache_call E video_id w e r He Hheld).
    apply Z.ltb_lt. exact Hlt.
  - rewrite (get_transcript_miss E video_id w Hhit).
    destruct (transcript_chain_run E video_id true (after_lookup E video_id w))
      as (r & w1 & Hrun & _).
    eauto.
Qed.

Lemma task_reset_keeps_transcript (d : gmap string entry) (video_id id : string)
    (e : entry) :
  <["status:" +:+ video_id := e]>
    (delete ("error:" +:+ video_id) (delete ("status:" +:+ video_id) d))
  !! ("transcript:" +:+ id)
  = d !! ("transcript:" +:+ id).
Proof.
  rewrite lookup_insert_ne by apply status_transcript_ne.
  rewrite lookup_delete_ne by apply error_transcript_ne.
  rewrite lookup_delete_ne by apply status_transcript_ne.
  reflexivity.
Qed.



(** X12.  A stored failure can be read back: after the error detail and the
    status [error] are written, the status endpoint answers [error] and the
    error endpoint answers the detail ("Unknown error" for an empty one),
    as long as no command takes twenty minutes. *)
Theorem published_error_readable (E : env) (video_id detail : string)
    (w : world) :
  (forall n, latency E n < 1200) ->
  let w' := publish_error E video_id detail w in
  fst (run E (get_video_status video_id) w') = Ok (VText "error")
  /\ fst (run E (get_video_error video_id) w')
     = Ok (if Str.truthy detail then detail else "Unknown error").
Proof.
  intros Hlat. cbv zeta. unfold publish_error.
  cbn [bind redis_SETEX call run exec fst snd].
  unfold get_video_status, get_video_error.
  cbn [bind redis_GET call run exec fst snd].
  unfold redis_get, advance. cbn [now db log length].
  rewrite !lookup_insert_eq. cbn [live held expires].
  set (n := length (log w)).
  pose proof (Hlat n) as H0. pose proof (Hlat (S n)) as H1.
  pose proof (Hlat (S (S n))) as H2.
  replace (_ <? _) with true by (symmetry; apply Z.ltb_lt; lia).
  cbn [value_truthy Str.truthy run fst bind call exec snd].
  split; [reflexivity|].
  unfold redis_get, advance. cbn [now db log length].
  rewrite lookup_insert_ne by discriminate. rewrite lookup_insert_eq.
  cbn [live held expires now db log length].
  replace (_ <? _) with true by (symmetry; apply Z.ltb_lt; lia).
  reflexivity.
Qed.

Lemma published_error_readable_witness :
  let w' := publish_error bare_env "D9Ihs241zeg" "Invalid IPv6 URL" fresh_world in
  fst (run bare_env (get_video_status "D9Ihs241zeg") w') = Ok (VText "error")
  /\ fst (run bare_env (get_video_error "D9Ihs241zeg") w')
     = Ok (if Str.truthy "Invalid IPv6 URL" then "Invalid IPv6 URL"
           else "Unknown error").
Proof.
  apply published_error_readable. intros n. reflexivity.
Defined.

(** X13.  The background task completes whenever the url can be parsed and
    the transcript key of its identifier is absent or holds a transcript:
    it returns, and its last two commands store six insight records and the
    status [completed] under the task's identifier. *)
Theorem process_video_completes (E : env) (video_id video_url id : string)
    (w : world) :
  extract_video_id E video_url = Ok id ->
  holds_transcript (db w !! ("transcript:" +:+ id)) ->
  exists recs w0,
    length recs = 6%nat
    /\ run E (process_video E video_id video_url) w
       = (Ok tt, publish_completed E video_id recs w0).
Proof.
  intros Hid Hh. unfold process_video, fetch_transcript. rewrite Hid.
  rewrite run_catch.
  cbn [lift bind redis_DELETE redis_SETEX call run exec fst snd].
  set (w3 := advance E _ _ (advance E _ _ (advance E _ _ w))).
  assert (Hh3 : holds_transcript (db w3 !! ("transcript:" +:+ id))).
  { subst w3. cbn [advance db]. rewrite task_reset_keeps_transcript. exact Hh. }
  destruct (get_transcript_returns E id w3 Hh3) as (r & w4 & Hrun).
  rewrite run_bind, Hrun. cbv zeta.
  destruct (extract_insights_returns E (segments r) w4)
    as (recs & w5 & Hrun' & _ & Hlen & _).
  rewrite run_bind, Hrun'.
  exists recs, w5. split; [exact Hlen|]. reflexivity.
Qed.

Lemma process_video_completes_witness :
  exists recs w0,
    length recs = 6%nat
    /\ run flaky_env
         (process_video flaky_env "D9Ihs241zeg" "https://youtu.be/D9Ihs241zeg")
         warm_world
       = (Ok tt, publish_completed flaky_env "D9Ihs241zeg" recs w0).
Proof.
  apply (process_video_completes flaky_env "D9Ihs241zeg"
           "https://youtu.be/D9Ihs241zeg" "D9Ihs241zeg" warm_world).
  - reflexivity.
  - vm_compute. exact I.
Defined.

(** X14.  An accepted submission answers the identifier with [pending], and
    polled right after it the status endpoint says [pending], the insights
    endpoint refuses with 400 and the error endpoint with 404, whatever the
    store held before (the [SETEX] taking less than its hour). *)
Theorem accepted_request_is_pending (E : env) (video_url video_id : string)
    (w : world) :
  extract_video_id E video_url = Ok video_id ->
  latency E (S (S (length (log w)))) < 3600 ->
  let w' := snd (run E (process_video_request E video_url) w) in
  fst (run E (process_video_request E video_url) w) = Ok (video_id, "pending")
  /\ fst (run E (get_video_status video_id) w') = Ok (VText "pending")
  /\ fst (run E (get_video_insights video_id) w')
     = Raise (HTTPException 400 "Video processing is pending")
  /\ fst (run E (get_video_error video_id) w')
     = Raise (HTTPException 404 "No error found").
Proof.
  intros Hid Hlat. cbv zeta. unfold process_video_request. rewrite Hid.
  cbn [lift catch bind redis_DELETE redis_SETEX call run exec fst snd].
  split; [reflexivity|].
  unfold get_video_status, get_video_insights, get_video_error.
  cbn [bind redis_GET call run exec fst snd].
  unfold redis_get, advance. cbn [now db log length].
  rewrite !lookup_insert_eq. cbn [live held expires].
  replace (_ <? _) with true by (symmetry; apply Z.ltb_lt; lia).
  repeat split; reflexivity.
Qed.

Lemma accepted_request_is_pending_witness :
  let w' := snd (run bare_env
                   (process_video_request bare_env "https://youtu.be/D9Ihs241zeg")
                   warm_world) in
  fst (run bare_env (process_video_request bare_env "https://youtu.be/D9Ihs241zeg")
         warm_world) = Ok ("D9Ihs241zeg", "pending")
  /\ fst (run bare_env (get_video_status "D9Ihs241zeg") w') = Ok (VText "pending")
  /\ fst (run bare_env (get_video_insights "D9Ihs241zeg") w')
     = Raise (HTTPException 400 "Video processing is pending")
  /\ fst (run bare_env (get_video_error "D9Ihs241zeg") w')
     = Raise (HTTPException 404 "No error found").
Proof.
  apply (accepted_request_is_pending bare_env "https://youtu.be/D9Ihs241zeg"
           "D9Ihs241zeg" warm_world).
  - reflexivity.
  - reflexivity.
Defined.

(** X15.  A url that [extract_video_id] rejects runs no command at all:
    the asynchronous endpoint answers 400 with the exception text, the
    synchronous one 500 with "Error processing video: " before it, and the
    world is as it was. *)
Theorem unparsable_url_rejected (E : env) (url : string) (e : exn) (w : world) :
  extract_video_id E url = Raise e ->
  run E (process_video_request E url) w
  = (Raise (HTTPException 400 (str_exn e)), w)
  /\ run E (process_video_endpoint E url) w
     = (Raise (HTTPException 500 ("Error processing video: " +:+ str_exn e)), w).
Proof.
  intros Hraise. unfold process_video_request, process_video_endpoint.
  rewrite Hraise. split; reflexivity.
Qed.

Lemma unparsable_url_rejected_witness :
  run bare_env (process_video_request bare_env "https://[youtu.be/D9Ihs241zeg")
    fresh_world
  = (Raise (HTTPException 400 (str_exn (ValueError "Invalid IPv6 URL"))),
     fresh_world)
  /\ run bare_env (process_video_endpoint bare_env "https://[youtu.be/D9Ihs241zeg")
       fresh_world
     = (Raise (HTTPException 500
                 ("Error processing video: "
                  +:+ str_exn (ValueError "Invalid IPv6 URL"))),
        fresh_world).
Proof.
  apply (unparsable_url_rejected bare_env "https://[youtu.be/D9Ihs241zeg"
           (ValueError "Invalid IPv6 URL") fresh_world).
  reflexivity.
Defined.

Lemma status_gone_get (video_id : string) (w : world) :
  status_gone video_id w -> redis_get ("status:" +:+ video_id) w = None.
Proof.
  unfold status_gone, redis_get. intros H.
  destruct (db w !! ("status:" +:+ video_id)) as [e|]; [|reflexivity].
  cbn [live]. replace (_ <? _) with false; [reflexivity|].
  symmetry. apply Z.ltb_ge. exact H.
Qed.

(** X16.  For an identifier whose status key is absent or expired, the status
    endpoint answers [not_found] and the insights and error endpoints answer
    404, whatever else the store holds for it. *)
Theorem unknown_job_endpoints (E : env) (video_id : string) (w : world) :
  status_gone video_id w ->
  fst (run E (get_video_status video_id) w) = Ok (VText "not_found")
  /\ fst (run E (get_video_insights video_id) w)
     = Raise (HTTPException 404 "Video not found")
  /\ fst (run E (get_video_error video_id) w)
     = Raise (HTTPException 404 "No error found").
Proof.
  intros H. apply status_gone_get in H.
  unfold get_video_status, get_video_insights, get_video_error.
  cbn [bind redis_GET call run exec fst snd]. rewrite H.
  repeat split; reflexivity.
Qed.

Lemma unknown_job_endpoints_witness :
  fst (run bare_env (get_video_status "D9Ihs241zeg") warm_world)
  = Ok (VText "not_found")
  /\ fst (run bare_env (get_video_insights "D9Ihs241zeg") warm_world)
     = Raise (HTTPException 404 "Video not found")
  /\ fst (run bare_env (get_video_error "D9Ihs241zeg") warm_world)
     = Raise (HTTPException 404 "No error found").
Proof.
  apply (unknown_job_endpoints bare_env "D9Ihs241zeg" warm_world).
  vm_compute. exact I.
Defined.

Ltac next_char s :=
  destruct s as [|[[] [] [] [] [] [] [] []] s]; try reflexivity.

Lemma insights_status_dispatch (E : env) (video_id s : string) (w : world) :
  s <> "completed" ->
  fst (run E
         match Some (VText s) with
         | Some (VText "completed") =>
             insights ← redis_GET ("insights:" +:+ video_id);
             if negb (value_truthy insights)
             then Throw (HTTPException 404 "Insights not found")
             else
               match insights with
               | Some (VInsights l) => Ret l
               | Some (VTranscript _) =>
                   Throw (TypeError "a transcript document under an insights key")
               | _ => Throw (JSONDecodeError "Expecting value")
               end
         | Some (VText status) =>
             Throw (HTTPException 400 ("Video processing is " +:+ status))
         | _ => Throw (HTTPException 400 "Video processing is not completed")
         end w)
  = Raise (HTTPException 400 ("Video processing is " +:+ s)).
Proof.
  intros Hne.
  next_char s. next_char s. next_char s. next_char s. next_char s.
  next_char s. next_char s. next_char s. next_char s.
  destruct s; [|reflexivity]. exfalso. apply Hne. reflexivity.
Qed.

Lemma error_status_dispatch (E : env) (video_id s : string) (w : world) :
  s <> "error" ->
  fst (run E
         match Some (VText s) with
         | Some (VText "error") =>
             error ← redis_GET ("error:" +:+ video_id);
             match error with
             | Some (VText msg) =>
                 Ret (if Str.truthy msg then msg else "Unknown error")
             | _ => Ret "Unknown error"
             end
         | _ => Throw (HTTPException 404 "No error found")
         end w)
  = Raise (HTTPException 404 "No error found").
Proof.
  intros Hne.
  next_char s. next_char s. next_char s. next_char s. next_char s.
  destruct s; [|reflexivity]. exfalso. apply Hne. reflexivity.
Qed.

(** X17.  While the stored status is any text other than [completed], the
    insights endpoint refuses with 400 and names that status; while it is
    any text other than [error], the error endpoint refuses with 404. *)
Theorem unfinished_job_endpoints (E : env) (video_id s : string) (w : world) :
  redis_get ("status:" +:+ video_id) w = Some (VText s) ->
  Str.truthy s = true ->
  (s <> "completed" ->
   fst (run E (get_video_insights video_id) w)
   = Raise (HTTPException 400 ("Video processing is " +:+ s)))
  /\ (s <> "error" ->
      fst (run E (get_video_error video_id) w)
      = Raise (HTTPException 404 "No error found")).
Proof.
  intros Hget Htruthy.
  unfold get_video_insights, get_video_error.
  cbn [bind redis_GET call run exec fst snd]. rewrite Hget.
  cbn [value_truthy]. rewrite Htruthy. cbn [negb].
  split; intros Hne.
  - apply insights_status_dispatch. exact Hne.
  - apply error_status_dispatch. exact Hne.
Qed.

Lemma unfinished_job_endpoints_witness :
  let w := snd (run bare_env
                  (process_video_request bare_env "https://youtu.be/D9Ihs241zeg")
                  fresh_world) in
  fst (run bare_env (get_video_insights "D9Ihs241zeg") w)
  = Raise (HTTPException 400 ("Video processing is " +:+ "pending"))
  /\ fst (run bare_env (get_video_error "D9Ihs241zeg") w)
     = Raise (HTTPException 404 "No error found").
Proof.
  cbv zeta.
  destruct (unfinished_job_endpoints bare_env "D9Ihs241zeg" "pending"
              (snd (run bare_env
                      (process_video_request bare_env
                         "https://youtu.be/D9Ihs241zeg") fresh_world)))
    as [Hinsights Herror].
  - reflexivity.
  - reflexivity.
  - split; [apply Hinsights|apply Herror]; discriminate.
Defined.

(** X18.  The synchronous endpoint, given a url it can parse and no warm
    transcript, answers six insight records and the text of the segments
    joined by spaces; it leaves the transcript cached and the status key at
    [pending]: this flow never writes [completed]. *)
Theorem process_video_endpoint_answers (E : env) (youtube_url video_id : string)
    (w : world) :
  extract_video_id E youtube_url = Ok video_id ->
  value_truthy (live (clock_after E w 5)
                     (db w !! ("transcript:" +:+ video_id))) = false ->
  exists recs r w',
    run E (process_video_endpoint E youtube_url) w
    = (Ok (recs, Str.join " " (map text (segments r))), w')
    /\ length recs = 6%nat
    /\ segments r <> []
    /\ (exists t, db w' !! ("transcript:" +:+ video_id)
                  = Some {| held := VTranscript r; expires := t |})
    /\ (exists t, db w' !! ("status:" +:+ video_id)
                  = Some {| held := VText "pending"; expires := t |}).
Proof.
  intros Hid Hmiss. unfold process_video_endpoint, fetch_transcript.
  rewrite Hid, run_catch.
  cbn [lift bind redis_DELETE call run exec fst snd].
  set (w2 := advance E _ _ (advance E _ _ w)).
  assert (Hmiss2 : value_truthy (live (clock_after E w2 3)
                                   (db w2 !! ("transcript:" +:+ video_id)))
                   = false).
  { subst w2. unfold clock_after in *.
    cbn [advance now db log length time_after] in *.
    rewrite lookup_delete_ne by apply error_transcript_ne.
    rewrite lookup_delete_ne by apply status_transcript_ne.
    exact Hmiss. }
  rewrite run_bind, (get_transcript_miss E video_id w2 Hmiss2).
  destruct (transcript_chain_run E video_id true (after_lookup E video_id w2))
    as (r & w1 & Hrun & Hseg & _ & Hdb & _).
  rewrite Hrun. cbv zeta.
  destruct (segments r) as [|seg segs] eqn:Hsegs; [contradiction|].
  destruct (extract_insights_returns E (seg :: segs)
              (cached_world E video_id true r w1))
    as (recs & w5 & Hrun' & _ & Hlen & _).
  pose proof (all_readonly_db E (extract_insights E (seg :: segs))
                (cached_world E video_id true r w1)
                (extract_insights_readonly E (seg :: segs))) as Hro.
  rewrite run_bind, Hrun'. rewrite Hrun' in Hro. cbn [snd] in Hro.
  exists recs, r, w5. rewrite Hsegs.
  split; [reflexivity|]. split; [exact Hlen|]. split; [discriminate|].
  rewrite Hro. cbn [cached_world advance db]. split.
  - eexists. apply lookup_insert_eq.
  - rewrite lookup_insert_ne
      by (intros Heq; symmetry in Heq; revert Heq; apply status_transcript_ne).
    rewrite Hdb. destruct (after_lookup_status E video_id w2) as [Hst _].
    eexists. exact Hst.
Qed.

Lemma process_video_endpoint_answers_witness :
  exists recs r w',
    run flaky_env (process_video_endpoint flaky_env "https://youtu.be/D9Ihs241zeg")
      fresh_world
    = (Ok (recs, Str.join " " (map text (segments r))), w')
    /\ length recs = 6%nat
    /\ segments r <> []
    /\ (exists t, db w' !! ("transcript:" +:+ "D9Ihs241zeg")
                  = Some {| held := VTranscript r; expires := t |})
    /\ (exists t, db w' !! ("status:" +:+ "D9Ihs241zeg")
                  = Some {| held := VText "pending"; expires := t |}).
Proof.
  apply (process_video_endpoint_answers flaky_env "https://youtu.be/D9Ihs241zeg"
           "D9Ihs241zeg" fresh_world).
  - reflexivity.
  - reflexivity.
Defined.

(* ===================================================================== *)
(** * Where [extract_video_id] raises *)
(* ===================================================================== *)

Lemma fold_add_nonempty (l : list (string * string))
    (m : gmap string (list string)) :
  (forall k vs, m !! k = Some vs -> vs <> []) ->
  forall k vs, foldl add_value m l !! k = Some vs -> vs <> [].
Proof.
  revert m. induction l as [|nv l IH]; intros m Hm k vs; cbn [foldl].
  - apply Hm.
  - apply IH. clear k vs. intros k vs. unfold add_value.
    destruct (m !! nv.1) as [ws|] eqn:Hnv.
    + destruct (decide (k = nv.1)) as [->|Hne].
      * rewrite lookup_insert_eq. intros [= <-]. destruct ws; discriminate.
      * rewrite lookup_insert_ne by congruence. apply Hm.
    + destruct (decide (k = nv.1)) as [->|Hne].
      * rewrite lookup_insert_eq. intros [= <-]. discriminate.
      * rewrite lookup_insert_ne by congruence. apply Hm.
Qed.

Lemma parse_qs_nonempty (qs k : string) (vs : list string) :
  parse_qs qs !! k = Some vs -> vs <> [].
Proof.
  unfold parse_qs. apply fold_add_nonempty.
  intros k' vs' H. rewrite lookup_empty in H. discriminate.
Qed.

Lemma split_nonempty (c : ascii) (s : string) : Str.split c s <> [].
Proof.
  destruct s as [|a s]; cbn [Str.split]; [discriminate|].
  destruct (Ascii.eqb a c); [discriminate|].
  destruct (Str.split c s); discriminate.
Qed.

Lemma starts_with_cons (a b : ascii) (p s : string) :
  Str.starts_with (String a p) (String b s) = true ->
  b = a /\ Str.starts_with p s = true.
Proof.
  cbn [Str.starts_with]. intros H. apply andb_true_iff in H as [Hab H].
  apply Ascii.eqb_eq in Hab. auto.
Qed.

Ltac peel_prefix H p :=
  destruct p as [|? p]; [discriminate H|];
  apply starts_with_cons in H as [-> H].

Lemma split_third (p : string) :
  Str.starts_with "/shorts/" p || Str.starts_with "/live/" p = true ->
  exists video_id, Str.split "/" p !! 2%nat = Some video_id.
Proof.
  intros H. apply orb_true_iff in H as [H|H].
  - do 8 peel_prefix H p.
    pose proof (split_nonempty "/" p) as Hne.
    simpl. destruct (Str.split "/" p) as [|x xs]; [contradiction|].
    exists x. reflexivity.
  - do 6 peel_prefix H p.
    pose proof (split_nonempty "/" p) as Hne.
    simpl. destruct (Str.split "/" p) as [|x xs]; [contradiction|].
    exists x. reflexivity.
Qed.

Lemma youtube_com_branch_returns (parsed_url : ParseResult) :
  exists o, youtube_com_branch parsed_url = Ok o.
Proof.
  unfold youtube_com_branch.
  destruct (String.eqb (path parsed_url) "/watch").
  - destruct (parse_qs (query parsed_url) !! "v") as [[|video_id vs]|] eqn:Hv;
      eauto.
    apply parse_qs_nonempty in Hv. contradiction.
  - destruct (Str.starts_with "/shorts/" (path parsed_url)
              || Str.starts_with "/live/" (path parsed_url)) eqn:Hp; eauto.
    destruct (split_third _ Hp) as [video_id ->]. eauto.
Qed.

(** X19.  The only exceptions of [extract_video_id] are those of [urlparse]:
    the index expressions [parse_qs(...)['v'][0]] and [path.split('/')[2]]
    never raise, as [parse_qs] keeps no empty list and a path that starts
    with [/shorts/] or [/live/] has a third part. *)
Theorem extract_video_id_raises_with_urlparse (E : env) (url : string) (e : exn) :
  extract_video_id E url = Raise e -> urlparse E url = Raise e.
Proof.
  unfold extract_video_id.
  destruct (urlparse E url) as [parsed_url|e'];
    [|intros [= ->]; reflexivity].
  destruct (Str.contains "youtu.be" (netloc parsed_url)); [discriminate|].
  destruct (Str.contains "youtube.com" (netloc parsed_url)
            || Str.contains "m.youtube.com" (netloc parsed_url));
    [|discriminate].
  destruct (youtube_com_branch_returns parsed_url) as [[video_id|] ->];
    discriminate.
Qed.

Lemma extract_video_id_raises_with_urlparse_witness :
  urlparse bare_env "https://[youtu.be/D9Ihs241zeg"
  = Raise (ValueError "Invalid IPv6 URL").
Proof.
  apply (extract_video_id_raises_with_urlparse bare_env
           "https://[youtu.be/D9Ihs241zeg" (ValueError "Invalid IPv6 URL")).
  reflexivity.
Defined.

Lemma all_lstrip_c0 (p : ascii -> bool) (s : string) :
  Str.all p s = true -> Str.all p (lstrip_c0 s) = true.
Proof.
  induction s as [|a s IH]; cbn [lstrip_c0]; [auto|].
  intros H. destruct (c0_control_or_space a); [|exact H].
  apply IH. cbn [Str.all] in H. apply andb_true_iff in H as [_ H]. exact H.
Qed.

Lemma all_remove (p : ascii -> bool) (d : ascii) (s : string) :
  Str.all p s = true -> Str.all p (Str.remove d s) = true.
Proof.
  induction s as [|a s IH]; cbn [Str.remove Str.all]; [auto|].
  intros H. apply andb_true_iff in H as [Ha H].
  destruct (Ascii.eqb a d); [auto|].
  cbn [Str.all]. rewrite Ha. cbn [andb]. auto.
Qed.

Lemma all_partition_rest (p : ascii -> bool) (d : ascii) (s b r : string) :
  Str.partition d s = (b, Some r) -> Str.all p s = true -> Str.all p r = true.
Proof.
  intros Hp Hs. apply partition_some in Hp. subst s.
  rewrite all_app in Hs. apply andb_true_iff in Hs as [_ Hs].
  cbn [Str.all] in Hs. apply andb_true_iff in Hs as [_ Hs]. exact Hs.
Qed.

Lemma all_split_scheme (p : ascii -> bool) (s : string) :
  Str.all p s = true -> Str.all p (snd (split_scheme s)) = true.
Proof.
  intros Hs. unfold split_scheme.
  destruct (Str.partition ":" s) as [[|c0 pre] [rest|]] eqn:Hp; try exact Hs.
  destruct (Str.is_alpha c0 && Str.all scheme_char (String c0 pre));
    [|exact Hs].
  cbn [snd]. eapply all_partition_rest; eassumption.
Qed.

Lemma all_drop (p : ascii -> bool) (n : nat) (s : string) :
  Str.all p s = true -> Str.all p (Str.drop n s) = true.
Proof.
  revert s. induction n as [|n IH]; intros s H; destruct s as [|a s];
    cbn [Str.drop]; try exact H.
  apply IH. cbn [Str.all] in H. apply andb_true_iff in H as [_ H]. exact H.
Qed.

Lemma all_span_until (p : ascii -> bool) (delims s : string) :
  Str.all p s = true -> Str.all p (fst (Str.span_until delims s)) = true.
Proof.
  induction s as [|a s IH]; cbn [Str.span_until]; [auto|].
  intros H. cbn [Str.all] in H. apply andb_true_iff in H as [Ha H].
  destruct (Str.mem a delims); [reflexivity|].
  destruct (Str.span_until delims s) as [b r]. cbn [fst] in *.
  cbn [Str.all]. rewrite Ha. cbn [andb]. auto.
Qed.

(** What is left of a url once it is stripped and its scheme is cut off
    holds only characters of the url. *)
Lemma all_cleaned (p : ascii -> bool) (url : string) :
  Str.all p url = true ->
  Str.all p (snd (split_scheme (remove_unsafe (lstrip_c0 url)))) = true.
Proof.
  intros H. apply all_split_scheme. unfold remove_unsafe.
  do 3 apply all_remove. apply all_lstrip_c0. exact H.
Qed.

Lemma mem_as_all (c : ascii) (s : string) :
  Str.mem c s = false <-> Str.all (fun d => negb (Ascii.eqb c d)) s = true.
Proof.
  induction s as [|a s IH]; cbn [Str.mem Str.all]; [tauto|].
  rewrite orb_false_iff, andb_true_iff, negb_true_iff, IH. tauto.
Qed.

Lemma mem_cleaned (c : ascii) (url : string) :
  Str.mem c url = false ->
  Str.mem c (snd (split_scheme (remove_unsafe (lstrip_c0 url)))) = false.
Proof. rewrite !mem_as_all. apply all_cleaned. Qed.

Lemma split_netloc_plain (E : env) (url : string) :
  Str.mem "[" url = false -> Str.mem "]" url = false ->
  split_netloc E url
  = Ok (if Str.starts_with "//" url
        then Str.span_until "/?#" (Str.drop 2 url)
        else (EmptyString, url)).
Proof.
  intros Hl Hr. unfold split_netloc.
  destruct (Str.starts_with "//" url); [|reflexivity].
  apply mem_as_all in Hl, Hr.
  pose proof (all_span_until _ "/?#" _ (all_drop _ 2 url Hl)) as Hl'.
  pose proof (all_span_until _ "/?#" _ (all_drop _ 2 url Hr)) as Hr'.
  apply mem_as_all in Hl', Hr'.
  destruct (Str.span_until "/?#" (Str.drop 2 url)) as [netloc rest].
  cbn [fst] in Hl', Hr'. rewrite Hl', Hr'. reflexivity.
Qed.

Lemma checknetloc_ascii (E : env) (netloc : string) :
  Str.isascii netloc = true -> checknetloc E netloc = Ok tt.
Proof.
  intros H. unfold checknetloc. rewrite H, orb_true_r. reflexivity.
Qed.

Lemma urlparse_of_urlsplit (E : env) (url : string) (r : ParseResult) :
  urlsplit E url = Ok r ->
  exists r', urlparse E url = Ok r' /\ netloc r' = netloc r.
Proof.
  intros H. unfold urlparse. rewrite H.
  destruct (existsb (String.eqb (scheme r)) uses_params && Str.mem ";" (path r)).
  - destruct (splitparams (path r)) as [p q]. eexists. split; reflexivity.
  - eexists. split; reflexivity.
Qed.

Lemma urlsplit_plain (E : env) (url : string) :
  Str.isascii url = true ->
  Str.mem "[" url = false -> Str.mem "]" url = false ->
  exists r, urlsplit E url = Ok r.
Proof.
  intros Ha Hl Hr. unfold urlsplit.
  pose proof (mem_cleaned "[" url Hl) as Hl'.
  pose proof (mem_cleaned "]" url Hr) as Hr'.
  pose proof (all_cleaned _ url Ha) as Ha'.
  destruct (split_scheme (remove_unsafe (lstrip_c0 url))) as [sch rest].
  cbn [snd] in Hl', Hr', Ha'. rewrite (split_netloc_plain E rest Hl' Hr').
  assert (Hnet : Str.isascii
                   (fst (if Str.starts_with "//" rest
                         then Str.span_until "/?#" (Str.drop 2 rest)
                         else (EmptyString, rest))) = true).
  { destruct (Str.starts_with "//" rest); [|reflexivity].
    apply all_span_until, all_drop. exact Ha'. }
  destruct (if Str.starts_with "//" rest
            then Str.span_until "/?#" (Str.drop 2 rest)
            else (EmptyString, rest)) as [net rest'].
  cbn [fst] in Hnet.
  destruct (split_once "#" rest') as [u frag].
  destruct (split_once "?" u) as [u' qry].
  rewrite (checknetloc_ascii E net Hnet). eauto.
Qed.

(** X20.  A url of ASCII characters without a square bracket is never
    rejected: [extract_video_id] returns an identifier for it, whatever
    else it holds. *)
Theorem extract_video_id_bracket_free (E : env) (url : string) :
  Str.isascii url = true ->
  Str.mem "[" url = false -> Str.mem "]" url = false ->
  exists video_id, extract_video_id E url = Ok video_id.
Proof.
  intros Ha Hl Hr.
  destruct (urlsplit_plain E url Ha Hl Hr) as [r Hsplit].
  destruct (urlparse_of_urlsplit E url r Hsplit) as (r' & Hparse & _).
  unfold extract_video_id. rewrite Hparse.
  destruct (Str.contains "youtu.be" (netloc r')); [eauto|].
  destruct (Str.contains "youtube.com" (netloc r')
            || Str.contains "m.youtube.com" (netloc r')); [|eauto].
  destruct (youtube_com_branch_returns r') as [[video_id|] ->]; eauto.
Qed.

Lemma extract_video_id_bracket_free_witness :
  exists video_id,
    extract_video_id bare_env "https://www.youtube.com/shorts/" = Ok video_id.
Proof.
  apply extract_video_id_bracket_free; reflexivity.
Defined.

Lemma starts_with_two_slashes (url : string) :
  Str.mem "/" url = false -> Str.starts_with "//" url = false.
Proof.
  destruct url as [|a url]; [reflexivity|].
  cbn [Str.mem Str.starts_with]. intros H.
  apply orb_false_iff in H as [-> _]. reflexivity.
Qed.

Lemma first_match_none (url : string) :
  Str.mem "/" url = false -> first_match patterns url = None.
Proof.
  intros H. pose proof (dot_then_slash_no_slash false url H) as Hd.
  unfold patterns. cbn [first_match].
  repeat (rewrite re_search_none;
          [|repeat constructor|exact Hd]).
  reflexivity.
Qed.

(** X21.  A url without a slash has no host and fits none of the five
    patterns: [extract_video_id] answers the demo identifier for it. *)
Theorem extract_video_id_no_slash (E : env) (url : string) :
  Str.mem "/" url = false ->
  extract_video_id E url = Ok demo_video_id.
Proof.
  intros H.
  assert (Hsplit : exists r, urlsplit E url = Ok r /\ netloc r = EmptyString).
  { unfold urlsplit. pose proof (mem_cleaned "/" url H) as H'.
    destruct (split_scheme (remove_unsafe (lstrip_c0 url))) as [sch rest].
    cbn [snd] in H'. unfold split_netloc.
    rewrite (starts_with_two_slashes rest H').
    destruct (split_once "#" rest) as [u frag].
    destruct (split_once "?" u) as [u' qry].
    eexists. split; reflexivity. }
  destruct Hsplit as (r & Hsplit & Hnet).
  destruct (urlparse_of_urlsplit E url r Hsplit) as (r' & Hparse & Hnet').
  rewrite Hnet in Hnet'.
  apply (extract_video_id_sentinel E url r' Hparse).
  - rewrite Hnet'. reflexivity.
  - right. rewrite Hnet'. reflexivity.
  - apply first_match_none. exact H.
Qed.

Lemma extract_video_id_no_slash_witness :
  extract_video_id bare_env "youtube.com?v=abc123" = Ok demo_video_id.
Proof.
  apply extract_video_id_no_slash. reflexivity.
Defined.

(* ===================================================================== *)
(** * The synthetic transcript *)
(* ===================================================================== *)

(** X22.  [get_mock_transcript] falls back to the generic text, word for
    word, whenever no metadata key is set, the lookup fails or has no
    items, or it gives no description or an empty title; and without a
    key it calls no service: the world is left as it is. *)
Theorem mock_generic_without_details (E : env) (video_id : string) (w : world) :
  key_set (YOUTUBE_API_KEY E) = false
  \/ match video_details_api E (length (log w)) video_id with
     | DetailsSnippet s =>
         default "" (description s) = "" \/ title s = Some ""
     | _ => True
     end ->
  fst (run E (get_mock_transcript E video_id) w) = Ok mock_generic
  /\ (key_set (YOUTUBE_API_KEY E) = false ->
      snd (run E (get_mock_transcript E video_id) w) = w).
Proof.
  unfold get_mock_transcript, get_video_details. intros H.
  destruct (key_set (YOUTUBE_API_KEY E)); cbn [negb];
    [|split; reflexivity].
  split; [|discriminate].
  destruct H as [H|H]; [discriminate H|].
  rewrite run_bind, run_catch.
  cbn [bind call run exec fst snd].
  destruct (video_details_api E (length (log w)) video_id) as [s| |msg];
    try reflexivity.
  cbn [run fst snd].
  destruct H as [H|H]; rewrite H.
  - rewrite andb_false_r. reflexivity.
  - reflexivity.
Qed.

Lemma mock_generic_without_details_witness :
  fst (run bare_env (get_mock_transcript bare_env "D9Ihs241zeg") fresh_world)
  = Ok mock_generic
  /\ (key_set (YOUTUBE_API_KEY bare_env) = false ->
      snd (run bare_env (get_mock_transcript bare_env "D9Ihs241zeg") fresh_world)
      = fresh_world).
Proof.
  apply (mock_generic_without_details bare_env "D9Ihs241zeg" fresh_world).
  left. reflexivity.
Defined.

(* ===================================================================== *)
(** * The status history of a submission *)
(* ===================================================================== *)

Lemma status_writes_app (video_id : string) (evs l : list event) :
  status_writes video_id (rev (evs ++ l))
  = status_writes video_id (rev l) ++ status_writes video_id (rev evs).
Proof. rewrite rev_app_distr. apply omap_app. Qed.

Lemma status_writes_cons (video_id : string) (ev : event) (l : list event) :
  status_writes video_id (rev (ev :: l))
  = status_writes video_id (rev l) ++ status_writes video_id [ev].
Proof. apply (status_writes_app video_id [ev] l). Qed.

Lemma status_writes_status (video_id : string) (ttl : Z) (v : value) :
  status_writes video_id [EvSetex ("status:" +:+ video_id) ttl v] = [v].
Proof. cbn [status_writes omap list_omap]. rewrite String.eqb_refl. reflexivity. Qed.

Lemma status_writes_other (video_id : string) (ev : event) :
  (forall ttl v, ev <> EvSetex ("status:" +:+ video_id) ttl v) ->
  status_writes video_id [ev] = [].
Proof.
  intros H. destruct ev as [key|key ttl v|key| | | | | |]; try reflexivity.
  cbn [status_writes omap list_omap].
  destruct (String.eqb_spec key ("status:" +:+ video_id)) as [->|_];
    [|reflexivity].
  exfalso. apply (H ttl v). reflexivity.
Qed.

Lemma status_writes_providers (video_id : string) (evs : list event) :
  Forall (fun ev => provider_event ev = true) evs ->
  status_writes video_id (rev evs) = [].
Proof.
  induction 1 as [|ev evs Hev _ IH]; [reflexivity|].
  rewrite status_writes_cons, IH. apply status_writes_other.
  intros ttl v ->. discriminate Hev.
Qed.

Lemma readonly_status_writes {A : Type} (E : env) (video_id : string)
    (p : prog A) (w : world) :
  all_readonly p ->
  status_writes video_id (history (snd (run E p w)))
  = status_writes video_id (history w).
Proof.
  revert w. induction p as [a | e | X c k IH]; simpl; intros w Hp;
    try reflexivity.
  destruct Hp as [Hc Hk].
  destruct (exec E c w) as [x w1] eqn:Hx. rewrite (IH x w1 (Hk x)).
  unfold history.
  destruct c; try contradiction; cbn in Hx; injection Hx as _ <-;
    cbn [advance log]; rewrite status_writes_cons;
    (rewrite status_writes_other; [apply app_nil_r|discriminate]).
Qed.

(** Whatever [get_transcript] does with a store, hit or miss, it writes the
    status once: [pending]. *)
Lemma get_transcript_status_writes (E : env) (video_id : string) (w : world) :
  holds_transcript (db w !! ("transcript:" +:+ video_id)) ->
  exists r w',
    run E (get_transcript E video_id true) w = (Ok r, w')
    /\ status_writes video_id (history w')
       = status_writes video_id (history w) ++ [VText "pending"].
Proof.
  intros Hh.
  assert (Hlook : status_writes video_id (history (after_lookup E video_id w))
                  = status_writes video_id (history w) ++ [VText "pending"]).
  { destruct (after_lookup_facts E video_id w) as (_ & _ & Hlog).
    unfold history. rewrite Hlog, status_writes_app. f_equal.
    cbn [rev app status_writes omap list_omap]. rewrite String.eqb_refl. reflexivity. }
  destruct (value_truthy (live (clock_after E w 3)
                            (db w !! ("transcript:" +:+ video_id)))) eqn:Hhit.
  - destruct (db w !! ("transcript:" +:+ video_id)) as [e|] eqn:He;
      [|discriminate Hhit].
    cbn [live] in Hhit. cbn [holds_transcript] in Hh.
    destruct (clock_after E w 3 <? expires e) eqn:Hlt; [|discriminate Hhit].
    destruct (held e) as [s|r|l] eqn:Hheld; try contradiction.
    exists r, (after_lookup E video_id w). split; [|exact Hlook].
    apply (warm_cache_call E video_id w e r He Hheld).
    apply Z.ltb_lt. exact Hlt.
  - rewrite (get_transcript_miss E video_id w Hhit).
    destruct (transcript_chain_run E video_id true (after_lookup E video_id w))
      as (r & w1 & -> & _ & _ & _ & evs & Hlog & Hevs).
    exists r, (cached_world E video_id true r w1). split; [reflexivity|].
    unfold history in *. cbn [cached_world advance log].
    rewrite status_writes_cons, status_writes_other.
    + rewrite Hlog, status_writes_app, Hlook.
      rewrite (status_writes_providers video_id evs Hevs), !app_nil_r.
      reflexivity.
    + discriminate.
Qed.

(** X23.  In every submission that runs to the end (a url that can be parsed,
    the transcript key absent or holding a transcript), the status of the
    identifier is written four times, in this order: [pending],
    [processing], [pending] again, [completed].  The step back from
    [processing] to [pending] is there for every input. *)
Theorem submit_status_history (E : env) (video_url video_id : string)
    (w : world) :
  extract_video_id E video_url = Ok video_id ->
  holds_transcript (db w !! ("transcript:" +:+ video_id)) ->
  status_writes video_id (history (snd (run E (submit E video_url) w)))
  = status_writes video_id (history w)
    ++ [VText "pending"; VText "processing"; VText "pending"; VText "completed"].
Proof.
  intros Hid Hh. unfold submit, process_video_request. rewrite Hid.
  rewrite run_bind.
  cbn [lift catch bind redis_DELETE redis_SETEX call run exec fst snd].
  unfold process_video, fetch_transcript. rewrite Hid.
  rewrite run_bind, run_catch.
  cbn [lift bind redis_DELETE redis_SETEX call run exec fst snd].
  set (w6 := advance E _ _ (advance E _ _ (advance E _ _
               (advance E _ _ (advance E _ _ (advance E _ _ w)))))).
  assert (H6 : status_writes video_id (history w6)
               = status_writes video_id (history w)
                 ++ [VText "pending"; VText "processing"]).
  { subst w6. unfold history. cbn [advance log].
    rewrite !status_writes_cons, !status_writes_status.
    rewrite !status_writes_other by discriminate.
    rewrite !app_nil_r, <- app_assoc. reflexivity. }
  assert (Hh6 : holds_transcript (db w6 !! ("transcript:" +:+ video_id))).
  { subst w6. cbn [advance db].
    rewrite !task_reset_keeps_transcript. exact Hh. }
  destruct (get_transcript_status_writes E video_id w6 Hh6)
    as (r & w7 & Hrun & H7).
  rewrite run_bind, Hrun. cbv zeta.
  pose proof (readonly_status_writes E video_id
                (extract_insights E (segments r)) w7
                (extract_insights_readonly E (segments r))) as H8.
  destruct (extract_insights_returns E (segments r) w7)
    as (recs & w8 & Hrun' & _).
  rewrite run_bind, Hrun'. rewrite Hrun' in H8. cbn [snd] in H8.
  cbn [bind redis_SETEX call run exec fst snd].
  unfold history in *. cbn [advance log].
  rewrite !status_writes_cons, status_writes_status.
  rewrite status_writes_other by discriminate.
  rewrite H8, H7, H6, app_nil_r, <- !app_assoc. reflexivity.
Qed.

Lemma submit_status_history_witness :
  status_writes "D9Ihs241zeg"
    (history (snd (run bare_env (submit bare_env "https://youtu.be/D9Ihs241zeg")
                     warm_world)))
  = status_writes "D9Ihs241zeg" (history warm_world)
    ++ [VText "pending"; VText "processing"; VText "pending"; VText "completed"].
Proof.
  apply (submit_status_history bare_env "https://youtu.be/D9Ihs241zeg"
           "D9Ihs241zeg" warm_world).
  - reflexivity.
  - vm_compute. exact I.
Defined.

(* ===================================================================== *)
(** * The insight generator *)
(* ===================================================================== *)


(** X25.  The generator reads at most the first 6000 characters of the
    transcript: two texts longer than that which agree on their first 6000
    characters get the same insights, in every environment. *)
Theorem generate_insights_truncates (E : env) (text1 text2 topic : string)
    (w : world) :
  (Z.to_nat 6000 <? Str.len text1)%nat = true ->
  (Z.to_nat 6000 <? Str.len text2)%nat = true ->
  Str.take_chars (Z.to_nat 6000) text1 = Str.take_chars (Z.to_nat 6000) text2 ->
  run E (generate_insights_with_gpt E text1 topic) w
  = run E (generate_insights_with_gpt E text2 topic) w.
Proof.
  intros H1 H2 Heq. unfold generate_insights_with_gpt.
  rewrite H1, H2, Heq. reflexivity.
Qed.

Lemma generate_insights_truncates_witness :
  long_text "b" <> long_text "c"
  /\ run echo_env
       (generate_insights_with_gpt echo_env (long_text "b") "Climate Change")
       fresh_world
     = run echo_env
         (generate_insights_with_gpt echo_env (long_text "c") "Climate Change")
         fresh_world.
Proof.
  split.
  - intros H. apply (f_equal (Str.drop (Z.to_nat 6000))) in H.
    vm_compute in H. discriminate H.
  - apply generate_insights_truncates.
    + vm_compute. reflexivity.
    + vm_compute. reflexivity.
    + vm_compute. reflexivity.
Defined.
